(** * AeroPredict: degradation series, cost analytics and supplier ranking

    A shallow embedding of [aeropredict_system.py], with the constants of
    [config.py] and the figure printed by [view_database.py]:

    - [create_nasa_sample_data]: the synthetic C-MAPSS style table and its
      Remaining-Useful-Life column;
    - [load_nasa_data], [add_supply_chain_data]: the rows written to the
      database;
    - [generate_cost_analytics]: the maintenance records that are inserted,
      the aggregate query over [maintenance_history], the savings
      arithmetic and the [INSERT OR REPLACE] into [cost_analytics];
    - [find_best_supplier]: the join, the weighted score and [LIMIT 1];
    - [generate_report] / [view_all_data]: the figures of the report;
    - [setup]: the five steps in order.

    Conventions.  Python [int] and SQLite INTEGER are [Z].  Python [float]
    and SQLite REAL values are exact rationals [Q] (every binary64 number
    is one).  The [ORDER BY] expression of [find_best_supplier] is
    evaluated in binary64, as SQLite evaluates it, because the row it
    selects can depend on the rounding.  The other arithmetic is
    idealised as exact: every value the statements about it pin down is an
    integer below 2^53 or a comparison with a wide margin.  SQL columns
    are nullable and are given type [option _] where a NULL can flow.
    Python exceptions are the [Raise] results of the [result] type.  The
    NumPy global generator is an explicit state threaded through every
    draw.  Console output, the text format of the CSV cache of the table
    and the SQLite connection handling are not part of the model. *)

From Stdlib Require Import PrimFloat.
From Stdlib Require SpecFloat FloatOps.
From Stdlib Require Import ZArith QArith Lia Lqa.
From stdpp Require Import base list strings gmap sorting pretty.

#[local] Set Warnings "-inexact-float".

Local Open Scope Z_scope.

(** ** Exceptions *)

Inductive exn : Set :=
| ValueError
| TypeError
| ZeroDivisionError.

Inductive result (A : Type) : Type :=
| Ok (a : A)
| Raise (e : exn).
Arguments Ok {A} a.
Arguments Raise {A} e.

#[export] Instance result_ret : MRet result := λ A a, Ok a.
#[export] Instance result_bind : MBind result := λ A B f m,
  match m with
  | Ok a => f a
  | Raise e => Raise e
  end.

(** ** The NumPy random source

    [np.random.seed], [np.random.randint] and [np.random.uniform] act on
    one global generator state.  The interface keeps that state abstract
    and records the one documented fact about [randint low high] that the
    development relies on: for [low < high] the draw lies in the half-open
    range [low .. high-1]. *)

Class NumpyRandom (rng : Type) : Type := {
  np_seed : Z → rng;
  np_randint_draw : rng → Z → Z → Z * rng;
  np_uniform : rng → Q → Q → Q * rng;
  np_randint_range : ∀ st low high,
    low < high → low ≤ (np_randint_draw st low high).1 < high
}.

(** [np.random.randint(low, high)]: raises [ValueError] ("low >= high")
    unless [low < high]. *)
Definition randint `{NumpyRandom rng} (st : rng) (low high : Z) : result (Z * rng) :=
  if decide (low < high) then Ok (np_randint_draw st low high)
  else Raise ValueError.

(** A small linear congruential generator, used to run the model on
    concrete inputs. *)
Definition lcg_next (st : Z) : Z := (st * 1103515245 + 12345) mod 2147483648.

Lemma lcg_randint_range (st low high : Z) :
  low < high → low ≤ (low + st mod (high - low), lcg_next st).1 < high.
Proof.
  intros Hlt. simpl.
  pose proof (Z.mod_pos_bound st (high - low)). lia.
Qed.

#[export] Instance lcg_random : NumpyRandom Z := {|
  np_seed := λ s, s mod 2147483648;
  np_randint_draw := λ st low high, (low + st mod (high - low), lcg_next st);
  np_uniform := λ st a b,
    ((a + (b - a) * (st mod 1000 # 1000))%Q, lcg_next st);
  np_randint_range := lcg_randint_range
|}.

(** ** [create_nasa_sample_data] *)

(** The literals of the method: [range(1, 101)], [randint(150, 350)],
    [seed(42)]. *)
Record gen_params : Set := {
  unit_count : Z;
  min_cycles : Z;
  max_cycles : Z;
  seed : Z
}.

Definition shipped_params : gen_params :=
  {| unit_count := 100; min_cycles := 150; max_cycles := 350; seed := 42 |}.

(** A small instance on which the model can be run. *)
Definition small_params : gen_params :=
  {| unit_count := 2; min_cycles := 3; max_cycles := 6; seed := 7 |}.

(** One element of [train_data]: the 26 columns of the frame before the
    RUL column is added. *)
Record row : Set := {
  unit_id : Z;
  time_cycle : Z;
  setting1 : Q;
  setting2 : Q;
  setting3 : Q;
  sensor : list Q
}.

(** Sensors 1 to 21 as functions of the degradation factor. *)
Definition sensor_readings (degradation_factor : Q) : list Q :=
  [ 518.67 + degradation_factor * 15;
    641.82 + degradation_factor * 20;
    1589.7 + degradation_factor * 100;
    1400.6 + degradation_factor * 50;
    14.62 - degradation_factor * 2;
    21.61;
    554.36 + degradation_factor * 25;
    2388.0 + degradation_factor * 80;
    9046.2 - degradation_factor * 100;
    1.30;
    47.47 + degradation_factor * 8;
    521.66 + degradation_factor * 15;
    2388.0 + degradation_factor * 80;
    8138.6 - degradation_factor * 90;
    8.4195 - degradation_factor * 0.5;
    0.03 + degradation_factor * 0.01;
    392 + degradation_factor * 30;
    2388 + degradation_factor * 80;
    100.0;
    38.86 + degradation_factor * 5;
    23.419 - degradation_factor * 1 ]%Q.

Section Generator.
Context `{NumpyRandom rng}.

(** The body of the inner loop: one row, three [uniform] draws. *)
Definition make_row (u cycle cycles : Z) (st : rng) : row * rng :=
  let degradation_factor := (inject_Z cycle / inject_Z cycles)%Q in
  let '(s1, st) := np_uniform st (-0.0007)%Q 0.0020%Q in
  let '(s2, st) := np_uniform st 0.0000%Q 0.0005%Q in
  let '(s3, st) := np_uniform st 100%Q 100%Q in
  ({| unit_id := u; time_cycle := cycle;
      setting1 := s1; setting2 := s2; setting3 := s3;
      sensor := sensor_readings degradation_factor |}, st).

(** [for cycle in range(1, cycles + 1): ... train_data.append(row)] *)
Definition cycle_loop (u cycles : Z) (acc : list row * rng) : list row * rng :=
  foldl (λ '(train_data, st) cycle,
           let '(r, st') := make_row u cycle cycles st in
           (train_data ++ [r], st'))
        acc (seqZ 1 cycles).

(** [for unit_id in range(1, unit_count + 1): cycles = randint(...); ...] *)
Fixpoint unit_loop (p : gen_params) (units : list Z)
    (train_data : list row) (st : rng) : result (list row * rng) :=
  match units with
  | [] => Ok (train_data, st)
  | u :: units' =>
      '(cycles, st1) ← randint st (min_cycles p) (max_cycles p);
      let '(train_data', st2) := cycle_loop u cycles (train_data, st1) in
      unit_loop p units' train_data' st2
  end.

(** The lifespans [(u, N_u)] the outer loop draws, obtained by replaying
    the same draws.  This is a specification device: the method itself
    keeps [cycles] only in a local variable. *)
Fixpoint lifespans (p : gen_params) (units : list Z) (st : rng)
    : result (list (Z * Z)) :=
  match units with
  | [] => Ok []
  | u :: units' =>
      '(cycles, st1) ← randint st (min_cycles p) (max_cycles p);
      let '(_, st2) := cycle_loop u cycles ([], st1) in
      rest ← lifespans p units' st2;
      Ok ((u, cycles) :: rest)
  end.

Definition unit_lifespans (p : gen_params) : result (list (Z * Z)) :=
  lifespans p (seqZ 1 (unit_count p)) (np_seed (seed p)).
End Generator.

(** [Series.unique()]: distinct values in order of first appearance. *)
Fixpoint unique_from (seen : list Z) (l : list Z) : list Z :=
  match l with
  | [] => []
  | x :: l' =>
      if decide (x ∈ seen) then unique_from seen l'
      else x :: unique_from (x :: seen) l'
  end.
Definition unique (l : list Z) : list Z := unique_from [] l.

(** [Series.max()] of an integer column; [None] for an empty column. *)
Definition series_max (l : list Z) : option Z :=
  match l with
  | [] => None
  | x :: l' => Some (foldl Z.max x l')
  end.

(** The second pass: for each unit, select its rows, take the largest
    cycle, and append [max_cycle - time_cycle] for each of its rows.  For
    an empty selection the inner loop has nothing to iterate over. *)
Definition rul_for_unit (df : list row) (rul_data : list Z) (u : Z) : list Z :=
  let unit_data := filter (λ r, unit_id r = u) df in
  match series_max (time_cycle <$> unit_data) with
  | Some max_cycle =>
      foldl (λ rul_data r, rul_data ++ [max_cycle - time_cycle r])
            rul_data unit_data
  | None => rul_data
  end.

Definition rul_pass (df : list row) : list Z :=
  foldl (rul_for_unit df) [] (unique (unit_id <$> df)).

(** A row of the finished frame. *)
Record reading : Set := {
  reading_row : row;
  RUL : Z
}.

(** [df['RUL'] = rul_data]: positional assignment, [ValueError] when the
    lengths differ. *)
Definition assign_RUL (df : list row) (rul_data : list Z) : result (list reading) :=
  if decide (length rul_data = length df)
  then Ok (zip_with Build_reading df rul_data)
  else Raise ValueError.

Section CreateData.
Context `{NumpyRandom rng}.

(** The method from [np.random.seed] on, with its literals as [p].  The
    generator state [ambient] found on entry is overwritten by the seed
    call; the state left behind is returned with the frame. *)
Definition create_nasa_sample_data_with (p : gen_params) (ambient : rng)
    : result (list reading * rng) :=
  let st := np_seed (seed p) in
  '(train_data, st') ← unit_loop p (seqZ 1 (unit_count p)) [] st;
  nasa_train_df ← assign_RUL train_data (rul_pass train_data);
  Ok (nasa_train_df, st').

Definition create_nasa_sample_data : rng → result (list reading * rng) :=
  create_nasa_sample_data_with shipped_params.
End CreateData.

(** ** [config.py]: cost parameters *)

Definition PREDICTIVE_LABOR_COST : Z := 2300.
Definition PREDICTIVE_PARTS_COST : Z := 4200.
Definition PREDICTIVE_DOWNTIME_HOURS : Z := 6.
Definition REACTIVE_LABOR_COST : Z := 18000.
Definition REACTIVE_PARTS_COST : Z := 12600.
Definition REACTIVE_DOWNTIME_HOURS : Z := 48.
Definition REACTIVE_FLIGHT_CANCELLATIONS : Z := 3.
Definition COST_PER_CANCELLATION : Z := 2000.

Definition TOTAL_PREDICTIVE_COST : Z :=
  PREDICTIVE_LABOR_COST + PREDICTIVE_PARTS_COST.
Definition TOTAL_REACTIVE_COST : Z :=
  REACTIVE_LABOR_COST + REACTIVE_PARTS_COST
  + REACTIVE_FLIGHT_CANCELLATIONS * COST_PER_CANCELLATION.

(** ** The tables *)

(** [maintenance_history] (without the autoincrement key).  The date is
    the ordinal of the calendar day; its rendering as text is not
    modelled. *)
Record maintenance_record : Set := {
  aircraft_id : string;
  component_id : string;
  maintenance_type : string;
  date_performed : Z;
  labor_cost : Q;
  parts_cost : Q;
  total_cost : Q;
  downtime_hours : Z;
  is_predictive : bool
}.

(** [cost_analytics]; the primary key [period] is the key of the map. *)
Record cost_analytics_row : Set := {
  total_maintenance_events : option Z;
  predictive_maintenance_count : option Z;
  reactive_maintenance_count : option Z;
  total_cost_predictive : option Q;
  total_cost_reactive : option Q;
  total_savings : option Q;
  downtime_hours_saved : option Z;
  flights_cancelled_avoided : option Z
}.

(** [suppliers]; the primary key [supplier_id] is the key of the map. *)
Record supplier_row : Set := {
  s_name : string;
  s_location : string;
  s_rating : Q;
  s_avg_delivery_days : Z;
  s_reliability_score : Q
}.

(** [supplier_parts] (without the autoincrement key). *)
Record supplier_part_row : Set := {
  sp_supplier_id : string;
  sp_part_number : string;
  sp_unit_price : Q;
  sp_min_quantity : Z;
  sp_delivery_days : Z
}.

Record database : Type := {
  suppliers : gmap string supplier_row;
  supplier_parts : list supplier_part_row;
  maintenance_history : list maintenance_record;
  cost_analytics : gmap string cost_analytics_row
}.

Definition empty_database : database :=
  {| suppliers := ∅; supplier_parts := [];
     maintenance_history := []; cost_analytics := ∅ |}.

(** ** [generate_cost_analytics]: the inserted records *)

(** [f"{n:03d}"] for a non-negative [n]. *)
Fixpoint zeros (k : nat) : string :=
  match k with
  | O => ""
  | S k' => "0" +:+ zeros k'
  end.
Definition fmt_03d (n : Z) : string :=
  let s := pretty n in
  zeros (3 - String.length s) +:+ s.

Definition predictive_record (today i : Z) : maintenance_record :=
  {| aircraft_id := "A320-" +:+ fmt_03d (i mod 3 + 1);
     component_id :=
       "A320-" +:+ fmt_03d (i mod 3 + 1) +:+ "-E" +:+ pretty (i mod 4 + 1) +:+ "-TURB";
     maintenance_type := "Predictive";
     date_performed := today - i * 7;
     labor_cost := 2300;
     parts_cost := 4200;
     total_cost := 6500;
     downtime_hours := 6;
     is_predictive := true |}.

Definition reactive_record (today i : Z) : maintenance_record :=
  {| aircraft_id := "B737-001";
     component_id := "B737-001-E" +:+ pretty (i mod 4 + 1) +:+ "-TURB";
     maintenance_type := "Reactive";
     date_performed := today - i * 30;
     labor_cost := 18000;
     parts_cost := 12600;
     total_cost := 52000;
     downtime_hours := 48;
     is_predictive := false |}.

(** The two [for i in range(..)] loops, with the literal bounds 12 and 3
    as [predictive_n] and [reactive_n]. *)
Definition synthesize_records (predictive_n reactive_n today : Z)
    : list maintenance_record :=
  (predictive_record today <$> seqZ 0 predictive_n)
  ++ (reactive_record today <$> seqZ 0 reactive_n).

Definition maintenance_records (today : Z) : list maintenance_record :=
  synthesize_records 12 3 today.

(** [executemany('INSERT INTO maintenance_history ...')] *)
Definition insert_maintenance_history (records : list maintenance_record)
    (db : database) : database :=
  {| suppliers := suppliers db;
     supplier_parts := supplier_parts db;
     maintenance_history := maintenance_history db ++ records;
     cost_analytics := cost_analytics db |}.

(** ** [generate_cost_analytics]: the aggregate query *)

(** SQL [SUM]: NULL over no rows, otherwise the running total. *)
Definition sql_sum_int (xs : list Z) : option Z :=
  match xs with
  | [] => None
  | _ => Some (foldl Z.add 0 xs)
  end.
Definition sql_sum_real (xs : list Q) : option Q :=
  match xs with
  | [] => None
  | _ => Some (foldl Qplus 0%Q xs)
  end.

(** The tuple returned by [cursor.fetchone()]. *)
Record aggregates : Set := {
  total_events : Z;
  pred_count : option Z;
  react_count : option Z;
  pred_cost : option Q;
  react_cost : option Q;
  pred_downtime : option Z;
  react_downtime : option Z
}.

Definition select_aggregates (history : list maintenance_record) : aggregates :=
  {| total_events := Z.of_nat (length history);
     pred_count :=
       sql_sum_int ((λ e, if is_predictive e then 1 else 0) <$> history);
     react_count :=
       sql_sum_int ((λ e, if is_predictive e then 0 else 1) <$> history);
     pred_cost :=
       sql_sum_real ((λ e, if is_predictive e then total_cost e else 0%Q) <$> history);
     react_cost :=
       sql_sum_real ((λ e, if is_predictive e then 0%Q else total_cost e) <$> history);
     pred_downtime :=
       sql_sum_int ((λ e, if is_predictive e then downtime_hours e else 0) <$> history);
     react_downtime :=
       sql_sum_int ((λ e, if is_predictive e then 0 else downtime_hours e) <$> history) |}.

(** Python arithmetic on values that may be [None]. *)
Definition py_mul (a : option Z) (b : Z) : result Z :=
  match a with
  | Some x => Ok (x * b)
  | None => Raise TypeError
  end.
Definition py_sub (a : Z) (b : option Z) : result Z :=
  match b with
  | Some y => Ok (a - y)
  | None => Raise TypeError
  end.
Definition py_sub_float (a : Z) (b : option Q) : result Q :=
  match b with
  | Some y => Ok (inject_Z a - y)%Q
  | None => Raise TypeError
  end.
Definition py_truediv (a : option Q) (b : Z) : result Q :=
  match a with
  | None => Raise TypeError
  | Some x => if decide (b = 0) then Raise ZeroDivisionError
              else Ok (x / inject_Z b)%Q
  end.
(** A [:,.0f] format specification applied to a value. *)
Definition py_format_float (a : option Q) : result unit :=
  match a with
  | Some _ => Ok ()
  | None => Raise TypeError
  end.

(** The "Calculate savings" block. *)
Definition calculate_savings (q : aggregates) : result (Q * Z * Z) :=
  avoided_reactive_cost ← py_mul (pred_count q) 52000;
  let actual_cost := pred_cost q in
  savings ← py_sub_float avoided_reactive_cost actual_cost;
  would_be_downtime ← py_mul (pred_count q) 48;
  downtime_saved ← py_sub would_be_downtime (pred_downtime q);
  flights_saved ← py_mul (pred_count q) 3;
  Ok (savings, downtime_saved, flights_saved).

Definition analytics_row (q : aggregates) (savings : Q)
    (downtime_saved flights_saved : Z) : cost_analytics_row :=
  {| total_maintenance_events := Some (total_events q);
     predictive_maintenance_count := pred_count q;
     reactive_maintenance_count := react_count q;
     total_cost_predictive := pred_cost q;
     total_cost_reactive := react_cost q;
     total_savings := Some savings;
     downtime_hours_saved := Some downtime_saved;
     flights_cancelled_avoided := Some flights_saved |}.

(** The rows of the period computed from a set of events. *)
Definition analytics_of (history : list maintenance_record)
    : result cost_analytics_row :=
  let q := select_aggregates history in
  '(savings, downtime_saved, flights_saved) ← calculate_savings q;
  Ok (analytics_row q savings downtime_saved flights_saved).

(** [INSERT OR REPLACE INTO cost_analytics VALUES (period, ...)] *)
Definition insert_or_replace_cost_analytics (period : string)
    (r : cost_analytics_row) (db : database) : database :=
  {| suppliers := suppliers db;
     supplier_parts := supplier_parts db;
     maintenance_history := maintenance_history db;
     cost_analytics := <[period := r]> (cost_analytics db) |}.

Definition period_label : string := "2024-Q4".

(** The part of the method from "Calculate analytics" on: query, savings,
    upsert. *)
Definition aggregate_cost_analytics (db : database) : result database :=
  r ← analytics_of (maintenance_history db);
  Ok (insert_or_replace_cost_analytics period_label r db).

(** The whole method, with the loop bounds as parameters, and as shipped. *)
Definition generate_cost_analytics_with (predictive_n reactive_n today : Z)
    (db : database) : result database :=
  aggregate_cost_analytics
    (insert_maintenance_history
       (synthesize_records predictive_n reactive_n today) db).

Definition generate_cost_analytics (today : Z) (db : database) : result database :=
  generate_cost_analytics_with 12 3 today db.

(** ** [get_cost_calculator_data], [generate_report], [view_all_data] *)

Definition get_cost_calculator_data (db : database) : option cost_analytics_row :=
  cost_analytics db !! period_label.

(** The cost-reduction percentage printed by [generate_report]; [None]
    when there is no row for the period.  The three amounts are formatted
    with [:,.0f] before the percentage is computed. *)
Definition report_savings_pct (db : database) : result (option Q) :=
  match get_cost_calculator_data db with
  | None => Ok None
  | Some analytics =>
      _ ← py_format_float (total_cost_predictive analytics);
      _ ← py_format_float (total_cost_reactive analytics);
      _ ← py_format_float (total_savings analytics);
      denominator ← py_mul (predictive_maintenance_count analytics) 52000;
      ratio ← py_truediv (total_savings analytics) denominator;
      Ok (Some (ratio * 100)%Q)
  end.

(** The cost-reduction percentage printed by [view_all_data]: a literal. *)
Definition view_cost_reduction (db : database) : result (option Q) :=
  match cost_analytics db !! period_label with
  | None => Ok None
  | Some analytics =>
      _ ← py_format_float (total_savings analytics);
      Ok (Some 87.5%Q)
  end.

(** ** [find_best_supplier] *)

(** A row of [supplier_parts sp JOIN suppliers s ON sp.supplier_id =
    s.supplier_id]. *)
Definition offer : Set := supplier_part_row * supplier_row.

Definition offers_for (db : database) (part_number : string) : list offer :=
  sp ← filter (λ sp, sp_part_number sp = part_number) (supplier_parts db);
  match suppliers db !! sp_supplier_id sp with
  | Some s => [(sp, s)]
  | None => []
  end.

(** *** REAL arithmetic

    SQLite evaluates the [ORDER BY] expression in binary64.  A REAL
    column holds a binary64 number: its value [q] is read as the binary64
    number nearest to [q], which is [q] itself for whatever was stored
    from a Python float.  An INTEGER operand of a REAL operation is
    converted in the same way. *)
Definition real_of_Q (q : Q) : float :=
  match Qnum q with
  | Z0 => PrimFloat.zero
  | Zpos n =>
      FloatOps.SF2Prim
        (SpecFloat.SFdiv FloatOps.prec FloatOps.emax
           (SpecFloat.S754_finite false n 0)
           (SpecFloat.S754_finite false (Qden q) 0))
  | Zneg n =>
      FloatOps.SF2Prim
        (SpecFloat.SFdiv FloatOps.prec FloatOps.emax
           (SpecFloat.S754_finite true n 0)
           (SpecFloat.S754_finite false (Qden q) 0))
  end.
Definition real_of_Z (n : Z) : float := real_of_Q (inject_Z n).

(** [sp.delivery_days * 100]: a product of two INTEGERs, computed on 64
    bits; when it does not fit, SQLite multiplies the operands as REALs. *)
Definition days_times_100 (delivery_days : Z) : float :=
  if decide (- 2 ^ 63 ≤ delivery_days * 100 < 2 ^ 63)
  then real_of_Z (delivery_days * 100)
  else (real_of_Z delivery_days * 100)%float.

(** The [ORDER BY] expression. *)
Definition score (o : offer) : float :=
  (real_of_Q (sp_unit_price o.1) * 0.4
   + days_times_100 (sp_delivery_days o.1) * 0.3
   + (5 - real_of_Q (s_rating o.2)) * 500 * 0.3)%float.

(** [ASC] on two values of the expression: a NaN is NULL to SQLite and
    sorts before every number; numbers are compared as IEEE 754 does
    (so [-0.0] and [0.0] are equal). *)
Definition null_first (x y : SpecFloat.spec_float) : bool :=
  match x, y with
  | SpecFloat.S754_nan, SpecFloat.S754_nan => false
  | SpecFloat.S754_nan, _ => true
  | _, SpecFloat.S754_nan => false
  | _, _ => SpecFloat.SFltb x y
  end.

Definition sorts_before (a b : offer) : bool :=
  null_first (FloatOps.Prim2SF (score a)) (FloatOps.Prim2SF (score b)).

(** [ORDER BY]: the sorter keeps rows with equal keys in the order in
    which the scan of [supplier_parts] produced them. *)
Fixpoint insert_by_score (o : offer) (sorted : list offer) : list offer :=
  match sorted with
  | [] => [o]
  | x :: sorted' =>
      if sorts_before x o then x :: insert_by_score o sorted'
      else o :: sorted
  end.
Definition order_by_score (l : list offer) : list offer :=
  foldr insert_by_score [] l.

(** The dictionary returned for the winning row. *)
Record best_supplier : Set := {
  supplier : string;
  location : string;
  rating : Q;
  price : Q;
  delivery_days : Z;
  reliability : Q
}.

Definition summary (o : offer) : best_supplier :=
  {| supplier := s_name o.2;
     location := s_location o.2;
     rating := s_rating o.2;
     price := sp_unit_price o.1;
     delivery_days := sp_delivery_days o.1;
     reliability := s_reliability_score o.2 |}.

(** [ORDER BY score ASC LIMIT 1], then [fetchone()]. *)
Definition find_best_supplier (db : database) (part_number : string)
    : option best_supplier :=
  match order_by_score (offers_for db part_number) with
  | [] => None
  | o :: _ => Some (summary o)
  end.

(** ** Vocabulary for the statements about the table *)

(** The identifying columns of a row. *)
Definition key (r : row) : Z * Z := (unit_id r, time_cycle r).

(** The keys and the RUL values of one unit of lifespan [N]: cycles
    [1 .. N], in order. *)
Definition cycle_block (uN : Z * Z) : list (Z * Z) :=
  (λ c, (uN.1, c)) <$> seqZ 1 uN.2.
Definition rul_block (uN : Z * Z) : list Z :=
  (λ c, uN.2 - c) <$> seqZ 1 uN.2.

(** The identifying columns and the label of a finished row. *)
Definition labelled (rd : reading) : Z * Z * Z :=
  (unit_id (reading_row rd), time_cycle (reading_row rd), RUL rd).
Definition labelled_block (uN : Z * Z) : list (Z * Z * Z) :=
  (λ c, (uN.1, c, uN.2 - c)) <$> seqZ 1 uN.2.

(** ** Vocabulary for the statements about the analytics *)

Definition predictive_events (history : list maintenance_record)
    : list maintenance_record :=
  filter (λ e, is_predictive e = true) history.
Definition reactive_events (history : list maintenance_record)
    : list maintenance_record :=
  filter (λ e, is_predictive e = false) history.

Definition count (events : list maintenance_record) : Z :=
  Z.of_nat (length events).
Definition cost_sum (events : list maintenance_record) : Q :=
  foldr Qplus 0%Q (total_cost <$> events).
Definition downtime_sum (events : list maintenance_record) : Z :=
  foldr Z.add 0 (downtime_hours <$> events).

(** The cost of the aircraft downtime in the reactive breakdown printed by
    [show_cost_comparison] of [aeropredict_demo.py]:
    18,000 + 12,600 + 15,400 + 6,000 = 52,000. *)
Definition REACTIVE_DOWNTIME_COST : Z := 15400.

(** The row of the period for the records the method inserts into an
    empty history. *)
Definition shipped_analytics : cost_analytics_row :=
  {| total_maintenance_events := Some 15;
     predictive_maintenance_count := Some 12;
     reactive_maintenance_count := Some 3;
     total_cost_predictive := Some 78000%Q;
     total_cost_reactive := Some 156000%Q;
     total_savings := Some 546000%Q;
     downtime_hours_saved := Some 504;
     flights_cancelled_avoided := Some 36 |}.

(** A fresh database after the method's 15 records have been inserted. *)
Definition recorded_db : database :=
  insert_maintenance_history (maintenance_records 0) empty_database.

(** Two offers for one part: (4200, 5 days, rating 4.8) and
    (4000, 7 days, rating 4.5). *)
Definition two_offer_db : database :=
  {| suppliers :=
       <["SUP-001" := {| s_name := "GE Aviation Parts";
                         s_location := "Cincinnati, OH";
                         s_rating := 4.8;
                         s_avg_delivery_days := 5;
                         s_reliability_score := 0.98 |}]>
       (<["SUP-004" := {| s_name := "AAR Corp";
                          s_location := "Wood Dale, IL";
                          s_rating := 4.5;
                          s_avg_delivery_days := 4;
                          s_reliability_score := 0.94 |}]> ∅);
     supplier_parts :=
       [ {| sp_supplier_id := "SUP-001"; sp_part_number := "HPT-8472-A";
            sp_unit_price := 4200; sp_min_quantity := 1;
            sp_delivery_days := 5 |};
         {| sp_supplier_id := "SUP-004"; sp_part_number := "HPT-8472-A";
            sp_unit_price := 4000; sp_min_quantity := 1;
            sp_delivery_days := 7 |} ];
     maintenance_history := [];
     cost_analytics := ∅ |}.

(** ** Vocabulary for the statements about the ranking *)

(** The row [ORDER BY score ASC LIMIT 1] yields from the rows [l]: no row
    has a smaller score, and every row scanned before it has a larger
    one. *)
Definition selected (l : list offer) (o : offer) : Prop :=
  ∃ before after,
    l = before ++ o :: after
    ∧ (∀ x, x ∈ before → sorts_before o x = true)
    ∧ (∀ x, x ∈ after → sorts_before x o = false).

(** The score formula read in exact arithmetic. *)
Definition exact_score (o : offer) : Q :=
  (sp_unit_price o.1 * 0.4
   + inject_Z (sp_delivery_days o.1) * 100 * 0.3
   + (5 - s_rating o.2) * 500 * 0.3)%Q.

(** Two offers for one part whose scores differ in exact arithmetic by
    less than binary64 resolves: (658.5, 2 days, rating 4.5) and
    (96 + 2^-46, 7 days, rating 4.0). *)
Definition near_tie_db : database :=
  {| suppliers :=
       <["SUP-001" := {| s_name := "GE Aviation Parts";
                         s_location := "Cincinnati, OH";
                         s_rating := 4.5;
                         s_avg_delivery_days := 5;
                         s_reliability_score := 0.98 |}]>
       (<["SUP-004" := {| s_name := "AAR Corp";
                          s_location := "Wood Dale, IL";
                          s_rating := 4.0;
                          s_avg_delivery_days := 4;
                          s_reliability_score := 0.94 |}]> ∅);
     supplier_parts :=
       [ {| sp_supplier_id := "SUP-001"; sp_part_number := "HPT-8472-A";
            sp_unit_price := 658.5; sp_min_quantity := 1;
            sp_delivery_days := 2 |};
         {| sp_supplier_id := "SUP-004"; sp_part_number := "HPT-8472-A";
            sp_unit_price := 6755399441055745 # 70368744177664;
            sp_min_quantity := 1;
            sp_delivery_days := 7 |} ];
     maintenance_history := [];
     cost_analytics := ∅ |}.

(** Two offers that [add_supply_chain_data] can store, for one part of
    standard price 4200: (3991.2599999999998, 6 days, rating 4.8) and
    (one unit in the last place less, 5 days, rating 4.6).  Their scores
    differ in exact arithmetic and coincide in binary64. *)
Definition rounding_tie_db : database :=
  {| suppliers :=
       <["SUP-001" := {| s_name := "GE Aviation Parts";
                         s_location := "Cincinnati, OH";
                         s_rating := 4.8;
                         s_avg_delivery_days := 5;
                         s_reliability_score := 0.98 |}]>
       (<["SUP-005" := {| s_name := "Honeywell Aerospace";
                          s_location := "Phoenix, AZ";
                          s_rating := 4.6;
                          s_avg_delivery_days := 5;
                          s_reliability_score := 0.95 |}]> ∅);
     supplier_parts :=
       [ {| sp_supplier_id := "SUP-001"; sp_part_number := "HPT-8472-A";
            sp_unit_price := 8776873558954475 # 2199023255552;
            sp_min_quantity := 1;
            sp_delivery_days := 6 |};
         {| sp_supplier_id := "SUP-005"; sp_part_number := "HPT-8472-A";
            sp_unit_price := 8776873558954474 # 2199023255552;
            sp_min_quantity := 1;
            sp_delivery_days := 5 |} ];
     maintenance_history := [];
     cost_analytics := ∅ |}.

(** Three suppliers offering one part at the same price, delivery time
    and rating, hence with the same score. *)
Definition tied_db : database :=
  {| suppliers :=
       <["SUP-001" := {| s_name := "GE Aviation Parts";
                         s_location := "Cincinnati, OH";
                         s_rating := 4.8;
                         s_avg_delivery_days := 5;
                         s_reliability_score := 0.98 |}]>
       (<["SUP-002" := {| s_name := "Pratt & Whitney Supply";
                          s_location := "Hartford, CT";
                          s_rating := 4.8;
                          s_avg_delivery_days := 6;
                          s_reliability_score := 0.96 |}]>
        (<["SUP-003" := {| s_name := "Rolls-Royce Components";
                           s_location := "Derby, UK";
                           s_rating := 4.8;
                           s_avg_delivery_days := 7;
                           s_reliability_score := 0.99 |}]> ∅));
     supplier_parts :=
       [ {| sp_supplier_id := "SUP-002"; sp_part_number := "HPT-8472-A";
            sp_unit_price := 4200; sp_min_quantity := 1;
            sp_delivery_days := 5 |};
         {| sp_supplier_id := "SUP-003"; sp_part_number := "HPT-8472-A";
            sp_unit_price := 4200; sp_min_quantity := 1;
            sp_delivery_days := 5 |};
         {| sp_supplier_id := "SUP-001"; sp_part_number := "HPT-8472-A";
            sp_unit_price := 4200; sp_min_quantity := 1;
            sp_delivery_days := 5 |} ];
     maintenance_history := [];
     cost_analytics := ∅ |}.

(** A loop whose body may raise. *)
Fixpoint foldlM {A B} (f : A → B → result A) (a : A) (l : list B) : result A :=
  match l with
  | [] => Ok a
  | x :: l' => a' ← f a x; foldlM f a' l'
  end.

(** ** The remaining tables and the whole store *)

(** [nasa_sensor_data] (without the autoincrement key and the wall-clock
    [timestamp] column). *)
Record nasa_sensor_row : Set := {
  ns_unit_id : Z;
  ns_time_cycle : Z;
  ns_temperature : Q;
  ns_pressure : Q;
  ns_fan_speed : Q;
  ns_vibration : Q;
  ns_rul : Z
}.

(** [parts_catalog]; the UNIQUE column [part_number] is the key. *)
Record part_row : Set := {
  part_name : string;
  part_category : string;
  standard_price : Q;
  rush_price : Q;
  lead_time_days : Z;
  stock_quantity : Z
}.

(** [aircraft]; the primary key [aircraft_id] is the key. *)
Record aircraft_row : Set := {
  ac_model : string;
  ac_manufacturer : string;
  year_manufactured : Z;
  total_flight_hours : Z;
  ac_status : string;
  last_maintenance_date : string
}.

(** [engine_components]; the primary key [component_id] is the key. *)
Record component_row : Set := {
  ec_aircraft_id : string;
  engine_number : Z;
  component_name : string;
  ec_part_number : string;
  operating_hours : Z;
  health_score : Q;
  failure_risk : Q;
  predicted_rul : Z
}.

(** The database file: the four tables of [database] and the others
    that the methods below read or write ([orders] is never touched). *)
Record store : Type := {
  core : database;
  nasa_sensor_data : list nasa_sensor_row;
  parts_catalog : gmap string part_row;
  aircraft : gmap string aircraft_row;
  engine_components : gmap string component_row
}.

Definition empty_store : store :=
  {| core := empty_database; nasa_sensor_data := [];
     parts_catalog := ∅; aircraft := ∅; engine_components := ∅ |}.

Definition with_core (db : database) (s : store) : store :=
  {| core := db;
     nasa_sensor_data := nasa_sensor_data s;
     parts_catalog := parts_catalog s;
     aircraft := aircraft s;
     engine_components := engine_components s |}.

(** [create_database]: [sqlite3.connect] opens the file, creating it when
    absent, and every table is created [IF NOT EXISTS]. *)
Definition create_database (file : option store) : store :=
  default empty_store file.

(** ** [create_nasa_sample_data] with its cache, [load_nasa_data] *)

Section Download.
Context `{NumpyRandom rng}.

(** The whole method: when [nasa_cmapss_train.csv] exists the frame is
    read from it ([csv] is that frame) and no draw is made; otherwise the
    table is generated. *)
Definition create_nasa_sample_data_cached (csv : option (list reading))
    (ambient : rng) : result (list reading * rng) :=
  match csv with
  | Some df => Ok (df, ambient)
  | None => create_nasa_sample_data ambient
  end.
End Download.

(** [DataFrame.sample(n, random_state=...)]: [n] rows drawn without
    replacement by a generator of its own; [ValueError] when the frame has
    fewer than [n] rows. *)
Class PandasSample : Type := {
  sample_rows : Z → nat → list reading → list reading;
  sample_rows_sub : ∀ random_state n df,
    (n ≤ length df)%nat →
    sample_rows random_state n df ⊆+ df
    ∧ length (sample_rows random_state n df) = n
}.

Definition df_sample `{PandasSample} (n : nat) (random_state : Z)
    (df : list reading) : result (list reading) :=
  if decide (n ≤ length df)%nat then Ok (sample_rows random_state n df)
  else Raise ValueError.

(** A sampler that takes the first [n] rows, used to run the model. *)
Lemma take_sample_sub (random_state : Z) (n : nat) (df : list reading) :
  (n ≤ length df)%nat → take n df ⊆+ df ∧ length (take n df) = n.
Proof.
  intros Hn. split; [apply submseteq_take|]. rewrite length_take. lia.
Qed.

#[export] Instance take_sample : PandasSample := {|
  sample_rows := λ _ n df, take n df;
  sample_rows_sub := take_sample_sub
|}.

(** [row['sensor_k']] *)
Definition sensor_col (k : nat) (r : row) : Q := nth (k - 1) (sensor r) 0%Q.

(** The tuple inserted for one sampled row. *)
Definition nasa_sensor_row_of (rd : reading) : nasa_sensor_row :=
  {| ns_unit_id := unit_id (reading_row rd);
     ns_time_cycle := time_cycle (reading_row rd);
     ns_temperature := sensor_col 3 (reading_row rd);
     ns_pressure := sensor_col 5 (reading_row rd);
     ns_fan_speed := sensor_col 7 (reading_row rd);
     ns_vibration := sensor_col 11 (reading_row rd);
     ns_rul := RUL rd |}.

Definition with_nasa_sensor_data (rows : list nasa_sensor_row) (s : store)
    : store :=
  {| core := core s;
     nasa_sensor_data := rows;
     parts_catalog := parts_catalog s;
     aircraft := aircraft s;
     engine_components := engine_components s |}.

Definition load_nasa_data `{PandasSample} (nasa_train_df : option (list reading))
    (s : store) : result store :=
  match nasa_train_df with
  | None => Ok s
  | Some df =>
      sample_data ← df_sample (Nat.min 1000 (length df)) 42 df;
      Ok (with_nasa_sensor_data
            (nasa_sensor_data s ++ (nasa_sensor_row_of <$> sample_data)) s)
  end.

(** ** [add_supply_chain_data] *)

Definition shipped_suppliers : list (string * supplier_row) :=
  [ ("SUP-001", {| s_name := "GE Aviation Parts"; s_location := "Cincinnati, OH";
                   s_rating := 4.8; s_avg_delivery_days := 5;
                   s_reliability_score := 0.98 |});
    ("SUP-002", {| s_name := "Pratt & Whitney Supply"; s_location := "Hartford, CT";
                   s_rating := 4.7; s_avg_delivery_days := 6;
                   s_reliability_score := 0.96 |});
    ("SUP-003", {| s_name := "Rolls-Royce Components"; s_location := "Derby, UK";
                   s_rating := 4.9; s_avg_delivery_days := 7;
                   s_reliability_score := 0.99 |});
    ("SUP-004", {| s_name := "AAR Corp"; s_location := "Wood Dale, IL";
                   s_rating := 4.5; s_avg_delivery_days := 4;
                   s_reliability_score := 0.94 |});
    ("SUP-005", {| s_name := "Honeywell Aerospace"; s_location := "Phoenix, AZ";
                   s_rating := 4.6; s_avg_delivery_days := 5;
                   s_reliability_score := 0.95 |}) ].

Definition shipped_parts : list (string * part_row) :=
  [ ("HPT-8472-A", {| part_name := "High-Pressure Turbine Blade Assembly";
                      part_category := "Engine Core"; standard_price := 4200;
                      rush_price := 12600; lead_time_days := 5;
                      stock_quantity := 15 |});
    ("FAN-3392-B", {| part_name := "Fan Blade Set (24 blades)";
                      part_category := "Fan Module"; standard_price := 8500;
                      rush_price := 25500; lead_time_days := 7;
                      stock_quantity := 8 |});
    ("BEAR-7721-C", {| part_name := "Main Shaft Bearing";
                       part_category := "Engine Core"; standard_price := 3200;
                       rush_price := 9600; lead_time_days := 4;
                       stock_quantity := 12 |});
    ("SEAL-4432-D", {| part_name := "Combustion Chamber Seal Kit";
                       part_category := "Combustion"; standard_price := 850;
                       rush_price := 2550; lead_time_days := 2;
                       stock_quantity := 45 |});
    ("FUEL-8821-E", {| part_name := "Fuel Nozzle Assembly";
                       part_category := "Fuel System"; standard_price := 1200;
                       rush_price := 3600; lead_time_days := 3;
                       stock_quantity := 30 |});
    ("IGN-2234-F", {| part_name := "Ignition System Complete";
                      part_category := "Ignition"; standard_price := 2800;
                      rush_price := 8400; lead_time_days := 6;
                      stock_quantity := 10 |});
    ("COMP-5543-G", {| part_name := "Compressor Blade Stage 1";
                       part_category := "Compressor"; standard_price := 5200;
                       rush_price := 15600; lead_time_days := 8;
                       stock_quantity := 6 |});
    ("COOL-6654-H", {| part_name := "Cooling Air Manifold";
                       part_category := "Cooling"; standard_price := 1800;
                       rush_price := 5400; lead_time_days := 4;
                       stock_quantity := 18 |}) ].

Definition shipped_aircraft : list (string * aircraft_row) :=
  [ ("A320-001", {| ac_model := "A320-200"; ac_manufacturer := "Airbus";
                    year_manufactured := 2018; total_flight_hours := 12340;
                    ac_status := "Operational";
                    last_maintenance_date := "2024-09-15" |});
    ("A320-002", {| ac_model := "A320-200"; ac_manufacturer := "Airbus";
                    year_manufactured := 2019; total_flight_hours := 8420;
                    ac_status := "Operational";
                    last_maintenance_date := "2024-10-01" |});
    ("A320-003", {| ac_model := "A320-200"; ac_manufacturer := "Airbus";
                    year_manufactured := 2020; total_flight_hours := 6200;
                    ac_status := "Operational";
                    last_maintenance_date := "2024-10-10" |});
    ("A320-004", {| ac_model := "A320-200"; ac_manufacturer := "Airbus";
                    year_manufactured := 2019; total_flight_hours := 10100;
                    ac_status := "Operational";
                    last_maintenance_date := "2024-09-20" |});
    ("B737-001", {| ac_model := "737-800"; ac_manufacturer := "Boeing";
                    year_manufactured := 2017; total_flight_hours := 15680;
                    ac_status := "Maintenance";
                    last_maintenance_date := "2024-10-20" |}) ].

(** [INSERT OR IGNORE] into a table with a unique key, one row and many. *)
Definition insert_or_ignore {V} (t : gmap string V) (kv : string * V)
    : gmap string V :=
  match t !! kv.1 with
  | Some _ => t
  | None => <[kv.1 := kv.2]> t
  end.
Definition insert_or_ignore_many {V} (rows : list (string * V))
    (t : gmap string V) : gmap string V :=
  foldl insert_or_ignore t rows.

(** [int(x)] of a float: truncation towards zero. *)
Definition py_int (x : Q) : Z := Z.quot (Qnum x) (Z.pos (Qden x)).

Section SupplyChain.
Context `{NumpyRandom rng}.

(** The body of the inner supplier-part loop. *)
Definition supplier_part_step (supplier_id : string) (delivery : Z)
    (acc : list supplier_part_row * rng) (part : string * part_row)
    : result (list supplier_part_row * rng) :=
  let '(supplier_parts_data, st) := acc in
  let '(price_variation, st1) := np_uniform st 0.95%Q 1.05%Q in
  '(jitter, st2) ← randint st1 (-1) 2;
  Ok (supplier_parts_data
      ++ [ {| sp_supplier_id := supplier_id;
              sp_part_number := part.1;
              sp_unit_price := (standard_price part.2 * price_variation)%Q;
              sp_min_quantity := 1;
              sp_delivery_days := delivery + jitter |} ],
      st2).

Definition supplier_parts_loop (sups : list (string * supplier_row))
    (parts : list (string * part_row)) (st : rng)
    : result (list supplier_part_row * rng) :=
  foldlM (λ acc sup,
            foldlM (supplier_part_step sup.1 (s_avg_delivery_days sup.2))
                   acc parts)
         ([], st) sups.

(** The body of the inner component loop. *)
Definition component_step (aircraft_id : string) (hours : Z)
    (acc : list (string * component_row) * rng) (engine_num : Z)
    : list (string * component_row) * rng :=
  let '(components, st) := acc in
  let comp_id := aircraft_id +:+ "-E" +:+ pretty engine_num +:+ "-TURB" in
  let '(health, st1) := np_uniform st 40%Q 98%Q in
  let risk := (100 - health)%Q in
  let '(u, st2) := np_uniform st1 10%Q 200%Q in
  let rul := py_int u in
  (components
   ++ [ (comp_id,
         {| ec_aircraft_id := aircraft_id;
            engine_number := engine_num;
            component_name := "High-Pressure Turbine";
            ec_part_number := "HPT-8472-A";
            operating_hours := hours;
            health_score := health;
            failure_risk := risk;
            predicted_rul := rul |}) ],
   st2).

Definition components_loop (fleet : list (string * aircraft_row)) (st : rng)
    : list (string * component_row) * rng :=
  foldl (λ acc ac,
           foldl (component_step ac.1 (total_flight_hours ac.2)) acc (seqZ 1 4))
        ([], st) fleet.

Definition add_supply_chain_data (s : store) (st : rng) : result (store * rng) :=
  let suppliers' := insert_or_ignore_many shipped_suppliers (suppliers (core s)) in
  let parts' := insert_or_ignore_many shipped_parts (parts_catalog s) in
  '(supplier_parts_data, st1) ←
    supplier_parts_loop shipped_suppliers shipped_parts st;
  let supplier_parts' := supplier_parts (core s) ++ supplier_parts_data in
  let aircraft' := insert_or_ignore_many shipped_aircraft (aircraft s) in
  let '(components, st2) := components_loop shipped_aircraft st1 in
  let components' := insert_or_ignore_many components (engine_components s) in
  Ok ({| core := {| suppliers := suppliers';
                    supplier_parts := supplier_parts';
                    maintenance_history := maintenance_history (core s);
                    cost_analytics := cost_analytics (core s) |};
         nasa_sensor_data := nasa_sensor_data s;
         parts_catalog := parts';
         aircraft := aircraft';
         engine_components := components' |},
      st2).
End SupplyChain.

(** [np.random.uniform(low, high)] returns a value between its bounds. *)
Class UniformInRange `{NumpyRandom rng} : Prop :=
  uniform_in_range : ∀ (st : rng) (low high : Q),
    (low <= high)%Q →
    (low <= (np_uniform st low high).1 <= high)%Q.

(** ** [generate_report] *)

(** SQL [MIN], [MAX] and [AVG] of an integer column: NULL over no rows. *)
Definition sql_min (xs : list Z) : option Z :=
  match xs with
  | [] => None
  | x :: xs' => Some (foldl Z.min x xs')
  end.
Definition sql_max (xs : list Z) : option Z :=
  match xs with
  | [] => None
  | x :: xs' => Some (foldl Z.max x xs')
  end.
Definition sql_avg (xs : list Z) : option Q :=
  match xs with
  | [] => None
  | _ => Some (Qdiv (inject_Z (foldl Z.add 0 xs))
                    (inject_Z (Z.of_nat (length xs))))
  end.

(** A numeric format specification ([:.0f], [:,]) applied to a value. *)
Definition py_format {A} (a : option A) : result A :=
  match a with
  | Some x => Ok x
  | None => Raise TypeError
  end.

(** The figures the report prints, in the order it prints them. *)
Record report : Set := {
  rep_readings : Z;
  rep_rul_min : Z;
  rep_rul_max : Z;
  rep_rul_avg : Q;
  rep_aircraft : Z;
  rep_flight_hours : Z;
  rep_suppliers : Z;
  rep_parts : Z;
  rep_cost_reduction : option Q;
  rep_best_supplier : option best_supplier
}.

Definition generate_report (s : store) : result report :=
  let ruls := ns_rul <$> nasa_sensor_data s in
  rul_min ← py_format (sql_min ruls);
  rul_max ← py_format (sql_max ruls);
  rul_avg ← py_format (sql_avg ruls);
  let hours := (λ kv, total_flight_hours kv.2) <$> map_to_list (aircraft s) in
  flight_hours ← py_format (sql_sum_int hours);
  savings_pct ← report_savings_pct (core s);
  Ok {| rep_readings := Z.of_nat (length ruls);
        rep_rul_min := rul_min;
        rep_rul_max := rul_max;
        rep_rul_avg := rul_avg;
        rep_aircraft := Z.of_nat (size (aircraft s));
        rep_flight_hours := flight_hours;
        rep_suppliers := Z.of_nat (size (suppliers (core s)));
        rep_parts := Z.of_nat (size (parts_catalog s));
        rep_cost_reduction := savings_pct;
        rep_best_supplier := find_best_supplier (core s) "HPT-8472-A" |}.

(** ** [setup] *)

Section Setup.
Context `{NumpyRandom rng} `{PandasSample}.

(** The five steps, in order; an exception of any step is re-raised.
    [csv] and [file] are the cached frame and the database file found on
    disk, if any; the result is the database, the frame held in
    [nasa_train_df] and the state of the NumPy generator. *)
Definition setup (csv : option (list reading)) (file : option store)
    (today : Z) (ambient : rng) : result (store * list reading * rng) :=
  '(nasa_train_df, st1) ← create_nasa_sample_data_cached csv ambient;
  let s0 := create_database file in
  s1 ← load_nasa_data (Some nasa_train_df) s0;
  '(s2, st2) ← add_supply_chain_data s1 st1;
  db ← generate_cost_analytics today (core s2);
  Ok (with_core db s2, nasa_train_df, st2).
End Setup.

(** ** Vocabulary for the further statements *)


(** The integer and the real columns of a [cost_analytics] row. *)
Definition int_columns (r : cost_analytics_row) : list (option Z) :=
  [ total_maintenance_events r; predictive_maintenance_count r;
    reactive_maintenance_count r; downtime_hours_saved r;
    flights_cancelled_avoided r ].
Definition real_columns (r : cost_analytics_row) : list (option Q) :=
  [ total_cost_predictive r; total_cost_reactive r; total_savings r ].

(** The database with its [supplier_parts] rows replaced. *)
Definition with_supplier_parts (rows : list supplier_part_row) (db : database)
    : database :=
  {| suppliers := suppliers db;
     supplier_parts := rows;
     maintenance_history := maintenance_history db;
     cost_analytics := cost_analytics db |}.

(** A [supplier_parts] row with another price. *)
Definition with_unit_price (p : Q) (sp : supplier_part_row) : supplier_part_row :=
  {| sp_supplier_id := sp_supplier_id sp;
     sp_part_number := sp_part_number sp;
     sp_unit_price := p;
     sp_min_quantity := sp_min_quantity sp;
     sp_delivery_days := sp_delivery_days sp |}.

(** Lexicographic order on (unit, cycle). *)
Definition key_lt (a b : Z * Z) : Prop :=
  a.1 < b.1 ∨ (a.1 = b.1 ∧ a.2 < b.2).

(** The keys of a unit whose rows carry the cycles [cs], in order. *)
Definition group_block (ucs : Z * list Z) : list (Z * Z) :=
  (λ c, (ucs.1, c)) <$> ucs.2.

(** The RUL values of a unit whose rows carry the cycles [cs]. *)
Definition group_rul (ucs : Z * list Z) : list Z :=
  match series_max ucs.2 with
  | Some max_cycle => (λ c, max_cycle - c) <$> ucs.2
  | None => []
  end.

(** A row with the given key and no measurements; a frame of such rows. *)
Definition bare_row (k : Z * Z) : row :=
  {| unit_id := k.1; time_cycle := k.2;
     setting1 := 0; setting2 := 0; setting3 := 0; sensor := [] |}.
Definition bare_frame (keys : list (Z * Z)) : list row := bare_row <$> keys.

(** What one pass of the inner loops of [add_supply_chain_data] produces
    for a supplier and a part, and for an aircraft and an engine number;
    [V], [Vh], [Vu] say what is known of the uniform draws. *)
Definition offer_row_ok (V : Q → Prop) (sup : string * supplier_row)
    (part : string * part_row) (r : supplier_part_row) : Prop :=
  sp_supplier_id r = sup.1
  ∧ sp_part_number r = part.1
  ∧ sp_min_quantity r = 1
  ∧ s_avg_delivery_days sup.2 - 1 ≤ sp_delivery_days r
    ≤ s_avg_delivery_days sup.2 + 1
  ∧ ∃ v, V v ∧ sp_unit_price r = (standard_price part.2 * v)%Q.

Definition component_id_of (aircraft_id : string) (engine_num : Z) : string :=
  aircraft_id +:+ "-E" +:+ pretty engine_num +:+ "-TURB".

Definition component_ok (Vh Vu : Q → Prop) (ac : string * aircraft_row)
    (engine_num : Z) (kc : string * component_row) : Prop :=
  kc.1 = component_id_of ac.1 engine_num
  ∧ ec_aircraft_id kc.2 = ac.1
  ∧ engine_number kc.2 = engine_num
  ∧ ec_part_number kc.2 = "HPT-8472-A"
  ∧ operating_hours kc.2 = total_flight_hours ac.2
  ∧ (∃ h, Vh h ∧ health_score kc.2 = h ∧ failure_risk kc.2 = (100 - h)%Q)
  ∧ ∃ u, Vu u ∧ predicted_rul kc.2 = py_int u.

(** The component ids of a fleet, four engines each. *)
Definition fleet_component_ids (fleet : list (string * aircraft_row))
    : list string :=
  ac ← fleet; component_id_of ac.1 <$> seqZ 1 4.

(** * Properties *)

(** ** The result monad *)

Lemma result_bind_Ok {A B} (m : result A) (f : A → result B) (b : B) :
  m ≫= f = Ok b ↔ ∃ a, m = Ok a ∧ f a = Ok b.
Proof.
  destruct m as [a|e]; simpl.
  - split; [eauto | intros (a' & [= <-] & ?); done].
  - split; [done | intros (a' & [=] & _)].
Qed.

(** ** Loops that append *)

Lemma foldl_snoc_fmap {A B} (f : A → B) (l : list A) (acc : list B) :
  foldl (λ acc x, acc ++ [f x]) acc l = acc ++ (f <$> l).
Proof.
  revert acc; induction l as [|x l IH]; intros acc; simpl.
  - by rewrite app_nil_r.
  - by rewrite IH, <- app_assoc.
Qed.

Lemma foldl_app_bind {A B} (g : A → list B) (step : list B → A → list B)
    (l : list A) (acc : list B) :
  (∀ acc x, step acc x = acc ++ g x) →
  foldl step acc l = acc ++ (l ≫= g).
Proof.
  intros Hstep. revert acc; induction l as [|x l IH]; intros acc; simpl.
  - by rewrite app_nil_r.
  - by rewrite IH, Hstep, <- app_assoc.
Qed.

Lemma zip_bind {A B C} (b1 : A → list B) (b2 : A → list C) (l : list A) :
  (∀ x, length (b1 x) = length (b2 x)) →
  zip (l ≫= b1) (l ≫= b2) = l ≫= (λ x, zip (b1 x) (b2 x)).
Proof.
  intros Hlen. induction l as [|x l IH]; [done|].
  rewrite !bind_cons, zip_with_app by apply Hlen. by rewrite IH.
Qed.

Lemma length_bind_ext {A B C} (b1 : A → list B) (b2 : A → list C) (l : list A) :
  (∀ x, length (b1 x) = length (b2 x)) →
  length (l ≫= b1) = length (l ≫= b2).
Proof.
  intros Hlen. induction l as [|x l IH]; [done|].
  rewrite !bind_cons, !length_app. by rewrite Hlen, IH.
Qed.

(** ** [unique] and [max] on grouped columns *)

Lemma unique_from_seen (seen : list Z) (u : Z) {A} (cs : list A) (rest : list Z) :
  u ∈ seen →
  unique_from seen (((λ _, u) <$> cs) ++ rest) = unique_from seen rest.
Proof.
  intros Hin. induction cs as [|c cs IH]; [done|].
  simpl. by rewrite decide_True.
Qed.

Lemma unique_from_block (seen : list Z) (u : Z) {A} (cs : list A) (rest : list Z) :
  u ∉ seen → cs ≠ [] →
  unique_from seen (((λ _, u) <$> cs) ++ rest)
  = u :: unique_from (u :: seen) rest.
Proof.
  intros Hnin Hne. destruct cs as [|c cs]; [done|].
  simpl. rewrite decide_False by done. f_equal.
  apply unique_from_seen. set_solver.
Qed.

Lemma foldl_max_seqZ (n : nat) (a : Z) :
  foldl Z.max a (seqZ (a + 1) (Z.of_nat n)) = a + Z.of_nat n.
Proof.
  induction n as [|n IH].
  - simpl. lia.
  - rewrite seqZ_S, foldl_app, IH. simpl. lia.
Qed.

Lemma series_max_seqZ (N : Z) :
  0 < N → series_max (seqZ 1 N) = Some N.
Proof.
  intros HN. rewrite seqZ_cons by done. simpl. f_equal.
  replace (Z.succ 1) with (1 + 1) by lia.
  replace (Z.pred N) with (Z.of_nat (Z.to_nat (N - 1))) by lia.
  rewrite foldl_max_seqZ. lia.
Qed.

(** ** The generation loops *)

Section GeneratorFacts.
Context `{NumpyRandom rng}.

Lemma make_row_key (u cycle cycles : Z) (st : rng) :
  key (make_row u cycle cycles st).1 = (u, cycle).
Proof.
  unfold make_row.
  destruct (np_uniform st _ _) as [s1 st1].
  destruct (np_uniform st1 _ _) as [s2 st2].
  destruct (np_uniform st2 _ _) as [s3 st3].
  reflexivity.
Qed.

Let step (u cycles : Z) : list row * rng → Z → list row * rng :=
  λ '(train_data, st) cycle,
    let '(r, st') := make_row u cycle cycles st in
    (train_data ++ [r], st').

Lemma cycle_fold_app (u cycles : Z) (cs : list Z) (td : list row) (st : rng) :
  foldl (step u cycles) (td, st) cs
  = (td ++ (foldl (step u cycles) ([], st) cs).1,
     (foldl (step u cycles) ([], st) cs).2).
Proof.
  revert td st. induction cs as [|c cs IH]; intros td st; simpl.
  - by rewrite app_nil_r.
  - destruct (make_row u c cycles st) as [r st'].
    rewrite (IH (td ++ [r])), (IH [r]). simpl.
    by rewrite <- app_assoc.
Qed.

Lemma cycle_fold_keys (u cycles : Z) (cs : list Z) (st : rng) :
  key <$> (foldl (step u cycles) ([], st) cs).1 = (λ c, (u, c)) <$> cs.
Proof.
  revert st. induction cs as [|c cs IH]; intros st; simpl; [done|].
  pose proof (make_row_key u c cycles st) as Hk.
  destruct (make_row u c cycles st) as [r st'].
  rewrite cycle_fold_app. simpl in *. by rewrite Hk, IH.
Qed.

Lemma cycle_loop_app (u cycles : Z) (td : list row) (st : rng) :
  cycle_loop u cycles (td, st)
  = (td ++ (cycle_loop u cycles ([], st)).1, (cycle_loop u cycles ([], st)).2).
Proof. apply cycle_fold_app. Qed.

Lemma cycle_loop_keys (u cycles : Z) (st : rng) :
  key <$> (cycle_loop u cycles ([], st)).1 = cycle_block (u, cycles).
Proof. apply cycle_fold_keys. Qed.

(** The outer loop succeeds exactly when its replay does, and then the
    table is the concatenation of one block per unit. *)
Lemma unit_loop_spec (p : gen_params) (units : list Z) (td : list row) (st : rng)
    (td' : list row) (st' : rng) :
  unit_loop p units td st = Ok (td', st') →
  ∃ ls, lifespans p units st = Ok ls
        ∧ ls.*1 = units
        ∧ key <$> td' = (key <$> td) ++ (ls ≫= cycle_block)
        ∧ Forall (λ uN, min_cycles p ≤ uN.2 < max_cycles p) ls.
Proof.
  revert td st. induction units as [|u units IH]; intros td st; simpl.
  - intros [= <- <-]. exists []. by rewrite app_nil_r.
  - unfold randint. destruct (decide (min_cycles p < max_cycles p)) as [Hlt|]; [|done].
    simpl. pose proof (np_randint_range st _ _ Hlt) as Hrange.
    destruct (np_randint_draw st (min_cycles p) (max_cycles p)) as [cycles st1].
    rewrite cycle_loop_app.
    pose proof (cycle_loop_keys u cycles st1) as Hkeys.
    destruct (cycle_loop u cycles ([], st1)) as [rows st2]. simpl in *.
    intros Hloop. destruct (IH _ _ Hloop) as (ls & -> & <- & Htd & Hall).
    exists ((u, cycles) :: ls). split_and!; [done|done| |by constructor].
    by rewrite Htd, fmap_app, Hkeys, bind_cons, <- app_assoc.
Qed.

Lemma unit_loop_total (p : gen_params) (units : list Z) (td : list row) (st : rng) :
  min_cycles p < max_cycles p →
  ∃ td' st', unit_loop p units td st = Ok (td', st').
Proof.
  intros Hlt. revert td st. induction units as [|u units IH]; intros td st; simpl.
  - eauto.
  - unfold randint. rewrite decide_True by done. simpl.
    destruct (np_randint_draw st _ _) as [cycles st1].
    destruct (cycle_loop u cycles (td, st1)) as [td1 st2]. apply IH.
Qed.

Lemma unit_loop_raise (p : gen_params) (u : Z) (units : list Z)
    (td : list row) (st : rng) :
  ¬ min_cycles p < max_cycles p →
  unit_loop p (u :: units) td st = Raise ValueError.
Proof. intros Hge. simpl. unfold randint. by rewrite decide_False. Qed.
End GeneratorFacts.

(** ** The RUL pass on a table made of per-unit blocks *)

Lemma rul_for_unit_app (df : list row) (acc : list Z) (u : Z) :
  rul_for_unit df acc u = acc ++ rul_for_unit df [] u.
Proof.
  unfold rul_for_unit.
  destruct (series_max _) as [m|]; [|by rewrite app_nil_r].
  by rewrite !foldl_snoc_fmap.
Qed.

Lemma filter_fmap_comm {A B} (f : A → B) (P : B → Prop) `{!∀ y, Decision (P y)}
    (l : list A) :
  filter P (f <$> l) = f <$> filter (λ x, P (f x)) l.
Proof.
  induction l as [|x l IH]; [done|].
  rewrite fmap_cons. destruct (decide (P (f x))).
  - by rewrite !filter_cons_True, fmap_cons, IH by done.
  - by rewrite !filter_cons_False, IH by done.
Qed.

Lemma rul_for_unit_keys (df : list row) (u : Z) :
  rul_for_unit df [] u
  = let ks := filter (λ k, k.1 = u) (key <$> df) in
    match series_max ks.*2 with
    | Some max_cycle => (λ k, max_cycle - k.2) <$> ks
    | None => []
    end.
Proof.
  unfold rul_for_unit. simpl.
  rewrite filter_fmap_comm, <- !list_fmap_compose.
  destruct (series_max _) as [m|]; [|done].
  rewrite foldl_snoc_fmap, <- list_fmap_compose. done.
Qed.

Lemma filter_unit_fmap (u u' : Z) (cs : list Z) :
  filter (λ k : Z * Z, k.1 = u) ((λ c, (u', c)) <$> cs)
  = if decide (u' = u) then (λ c, (u', c)) <$> cs else [].
Proof.
  induction cs as [|c cs IH].
  - by destruct (decide _).
  - rewrite fmap_cons. destruct (decide (u' = u)) as [Heq|Hne].
    + by rewrite filter_cons_True, IH by done.
    + by rewrite filter_cons_False, IH by done.
Qed.

Lemma filter_blocks_notin (ls : list (Z * Z)) (u : Z) :
  u ∉ ls.*1 → filter (λ k : Z * Z, k.1 = u) (ls ≫= cycle_block) = [].
Proof.
  induction ls as [|[u' N'] ls IH]; [done|].
  rewrite fmap_cons, not_elem_of_cons. intros [Hne Hnin].
  rewrite bind_cons, filter_app, IH by done.
  unfold cycle_block. rewrite filter_unit_fmap. simpl.
  by rewrite decide_False by done.
Qed.

Lemma filter_blocks (ls : list (Z * Z)) (u N : Z) :
  NoDup ls.*1 → (u, N) ∈ ls →
  filter (λ k : Z * Z, k.1 = u) (ls ≫= cycle_block) = cycle_block (u, N).
Proof.
  induction ls as [|[u' N'] ls IH]; [by intros _ ?%elem_of_nil|].
  rewrite fmap_cons, NoDup_cons. intros [Hnin Hnd] Hin.
  rewrite bind_cons, filter_app. unfold cycle_block at 1.
  rewrite filter_unit_fmap. simpl.
  apply elem_of_cons in Hin as [[= <- <-]|Hin].
  - rewrite decide_True, filter_blocks_notin by done. by rewrite app_nil_r.
  - rewrite decide_False.
    + by rewrite IH.
    + intros ->. apply Hnin. apply list_elem_of_fmap. by exists (u, N).
Qed.

Lemma unique_blocks (ls : list (Z * Z)) (seen : list Z) :
  NoDup ls.*1 → (∀ u, u ∈ ls.*1 → u ∉ seen) →
  unique_from seen (ls ≫= cycle_block).*1 = (filter (λ uN, 0 < uN.2) ls).*1.
Proof.
  revert seen. induction ls as [|[u N] ls IH]; intros seen; [done|].
  rewrite fmap_cons, NoDup_cons. intros [Hnin Hnd] Hseen.
  rewrite bind_cons, fmap_app. unfold cycle_block at 1.
  rewrite <- list_fmap_compose. simpl.
  destruct (decide (0 < N)) as [Hpos|Hnpos].
  - rewrite filter_cons_True by done.
    rewrite (unique_from_block seen u (seqZ 1 N)).
    + rewrite fmap_cons. simpl. f_equal. apply IH; [done|].
      intros u' Hu'. rewrite not_elem_of_cons. split.
      * intros ->. done.
      * apply Hseen. by right.
    + apply Hseen. by left.
    + rewrite seqZ_cons by done. done.
  - rewrite filter_cons_False by done.
    rewrite seqZ_nil by lia. simpl. apply IH; [done|].
    intros u' Hu'. apply Hseen. by right.
Qed.

Lemma bind_fmap_filter {A B C} (P : A → Prop) `{!∀ x, Decision (P x)}
    (f : A → B) (g : B → list C) (h : A → list C) (l : list A) :
  (∀ x, x ∈ l → P x → g (f x) = h x) →
  (∀ x, x ∈ l → ¬ P x → h x = []) →
  (f <$> filter P l) ≫= g = l ≫= h.
Proof.
  induction l as [|x l IH]; intros Hyes Hno; [done|].
  rewrite bind_cons. destruct (decide (P x)) as [HP|HnP].
  - rewrite filter_cons_True, fmap_cons, bind_cons by done.
    rewrite (Hyes x) by (done || by left). f_equal.
    apply IH; intros y Hy; [apply Hyes | apply Hno]; by right.
  - rewrite filter_cons_False by done.
    rewrite (Hno x) by (done || by left). simpl.
    apply IH; intros y Hy; [apply Hyes | apply Hno]; by right.
Qed.

Lemma rul_pass_blocks (df : list row) (ls : list (Z * Z)) :
  key <$> df = ls ≫= cycle_block → NoDup ls.*1 →
  rul_pass df = ls ≫= rul_block.
Proof.
  intros Hkeys Hnd. unfold rul_pass.
  rewrite (foldl_app_bind (λ u, rul_for_unit df [] u)) by apply rul_for_unit_app.
  simpl. unfold unique.
  replace (unit_id <$> df) with (key <$> df).*1
    by (by rewrite <- list_fmap_compose).
  rewrite Hkeys, unique_blocks by (done || intros; apply not_elem_of_nil).
  apply bind_fmap_filter.
  - intros [u N] Hin Hpos. simpl in *.
    rewrite rul_for_unit_keys, Hkeys. simpl.
    rewrite (filter_blocks ls u N) by done.
    unfold cycle_block, rul_block. simpl.
    rewrite <- (list_fmap_compose _ snd).
    replace (snd ∘ (λ c : Z, (u, c)) <$> seqZ 1 N) with (seqZ 1 N)
      by (symmetry; apply list_fmap_id).
    by rewrite series_max_seqZ, <- list_fmap_compose by done.
  - intros [u N] _ Hnpos. unfold rul_block. simpl in *.
    by rewrite seqZ_nil by lia.
Qed.

(** ** The finished table *)

Lemma labelled_zip (df : list row) (rul_data : list Z) :
  labelled <$> zip_with Build_reading df rul_data = zip (key <$> df) rul_data.
Proof.
  revert rul_data. induction df as [|r df IH]; intros [|x rul_data]; try done.
  simpl. by rewrite IH.
Qed.

Lemma zip_fmap_diag {A B C} (f : A → B) (g : A → C) (l : list A) :
  zip (f <$> l) (g <$> l) = (λ x, (f x, g x)) <$> l.
Proof. induction l as [|x l IH]; [done|]. rewrite !fmap_cons. simpl. by f_equal. Qed.

Lemma zip_blocks (uN : Z * Z) :
  zip (cycle_block uN) (rul_block uN) = labelled_block uN.
Proof. apply zip_fmap_diag. Qed.

Lemma blocks_same_length (uN : Z * Z) :
  length (cycle_block uN) = length (rul_block uN).
Proof. unfold cycle_block, rul_block. by rewrite !length_fmap. Qed.

Lemma elem_of_labelled_blocks (ls : list (Z * Z)) (u c x : Z) :
  (u, c, x) ∈ ls ≫= labelled_block
  ↔ ∃ N, (u, N) ∈ ls ∧ 1 ≤ c ≤ N ∧ x = N - c.
Proof.
  rewrite list_elem_of_bind. split.
  - intros ([u' N] & Hin & Hls). unfold labelled_block in Hin. simpl in Hin.
    apply list_elem_of_fmap in Hin as (c' & [= -> -> ->] & Hc).
    apply elem_of_seqZ in Hc. exists N. split_and!; [done|lia|lia|done].
  - intros (N & Hls & Hc & ->). exists (u, N). split; [|done].
    unfold labelled_block. simpl. apply list_elem_of_fmap.
    exists c. split; [done|]. apply elem_of_seqZ. lia.
Qed.

Section CreateFacts.
Context `{NumpyRandom rng}.

(** Once the generation loops have run, the RUL column always fits the
    frame, and the finished table is one labelled block per unit. *)
Lemma create_after_loops (p : gen_params) (ambient : rng)
    (td : list row) (st' : rng) :
  unit_loop p (seqZ 1 (unit_count p)) [] (np_seed (seed p)) = Ok (td, st') →
  ∃ ls df,
    create_nasa_sample_data_with p ambient = Ok (df, st')
    ∧ unit_lifespans p = Ok ls
    ∧ ls.*1 = seqZ 1 (unit_count p)
    ∧ Forall (λ uN, min_cycles p ≤ uN.2 < max_cycles p) ls
    ∧ labelled <$> df = ls ≫= labelled_block.
Proof.
  intros Hloop.
  destruct (unit_loop_spec _ _ _ _ _ _ Hloop) as (ls & Hls & Hfst & Hkeys & Hall).
  simpl in Hkeys.
  assert (NoDup ls.*1) as Hnd by (rewrite Hfst; apply NoDup_seqZ).
  pose proof (rul_pass_blocks td ls Hkeys Hnd) as Hrul.
  exists ls, (zip_with Build_reading td (rul_pass td)).
  split_and!; [|done|done|done|].
  - unfold create_nasa_sample_data_with. rewrite Hloop. simpl.
    unfold assign_RUL. rewrite decide_True; [done|].
    rewrite Hrul, <- (length_fmap key td), Hkeys.
    symmetry. apply length_bind_ext, blocks_same_length.
  - rewrite labelled_zip, Hkeys, Hrul, zip_bind by apply blocks_same_length.
    apply list_bind_ext; [|done]. intros uN. apply zip_blocks.
Qed.

Lemma create_total (p : gen_params) (ambient : rng) :
  min_cycles p < max_cycles p →
  ∃ ls df st',
    create_nasa_sample_data_with p ambient = Ok (df, st')
    ∧ unit_lifespans p = Ok ls
    ∧ ls.*1 = seqZ 1 (unit_count p)
    ∧ Forall (λ uN, min_cycles p ≤ uN.2 < max_cycles p) ls
    ∧ labelled <$> df = ls ≫= labelled_block.
Proof.
  intros Hlt.
  destruct (unit_loop_total p (seqZ 1 (unit_count p)) [] (np_seed (seed p)) Hlt)
    as (td & st' & Hloop).
  destruct (create_after_loops p ambient td st' Hloop) as (ls & df & ?).
  by exists ls, df, st'.
Qed.
End CreateFacts.

Lemma NoDup_fst_functional {A B} (l : list (A * B)) (x : A) (y1 y2 : B) :
  NoDup l.*1 → (x, y1) ∈ l → (x, y2) ∈ l → y1 = y2.
Proof.
  induction l as [|[a b] l IH]; [by intros _ ?%elem_of_nil|].
  rewrite fmap_cons, NoDup_cons. intros [Hnin Hnd].
  rewrite !elem_of_cons. intros [[= -> ->]|H1] [[= ?]|H2]; subst.
  - done.
  - exfalso. apply Hnin, list_elem_of_fmap. by exists (a, y2).
  - exfalso. apply Hnin, list_elem_of_fmap. by exists (a, y1).
  - by apply IH.
Qed.

Section GeneratorClaims.
Context `{NumpyRandom rng}.

(** C1.  Whenever the draw bounds are in order the generator returns a
    table, and with [ls] the lifespans [(u, N_u)] it drew for the units
    [1 .. unit_count]: every cycle [c] in [1 .. N_u] of every unit has a
    reading whose RUL is [N_u - c] (the table is, unit after unit, the
    cycles [1 .. N_u] labelled [N_u - 1, ..., 0]); every reading of the
    table is such a reading, so its RUL is non-negative and is zero exactly at the
    terminal cycle [c = N_u]; and within a unit a later cycle has a
    strictly smaller RUL. *)
Theorem C1_rul_is_lifespan_minus_cycle (p : gen_params) (ambient : rng) :
  min_cycles p < max_cycles p →
  ∃ ls df st',
    create_nasa_sample_data_with p ambient = Ok (df, st')
    ∧ unit_lifespans p = Ok ls
    ∧ ls.*1 = seqZ 1 (unit_count p)
    ∧ labelled <$> df = ls ≫= labelled_block
    ∧ (∀ u N c, (u, N) ∈ ls → 1 ≤ c ≤ N →
         ∃ rd, rd ∈ df ∧ unit_id (reading_row rd) = u
               ∧ time_cycle (reading_row rd) = c ∧ RUL rd = N - c)
    ∧ (∀ rd, rd ∈ df →
         ∃ N, (unit_id (reading_row rd), N) ∈ ls
              ∧ 1 ≤ time_cycle (reading_row rd) ≤ N
              ∧ RUL rd = N - time_cycle (reading_row rd)
              ∧ 0 ≤ RUL rd
              ∧ (RUL rd = 0 ↔ time_cycle (reading_row rd) = N))
    ∧ (∀ r1 r2, r1 ∈ df → r2 ∈ df →
         unit_id (reading_row r1) = unit_id (reading_row r2) →
         time_cycle (reading_row r1) < time_cycle (reading_row r2) →
         RUL r2 < RUL r1).
Proof.
  intros Hlt.
  destruct (create_total p ambient Hlt)
    as (ls & df & st' & Hcreate & Hls & Hfst & _ & Hlab).
  assert (NoDup ls.*1) as Hnd by (rewrite Hfst; apply NoDup_seqZ).
  assert (∀ rd, rd ∈ df →
            ∃ N, (unit_id (reading_row rd), N) ∈ ls
                 ∧ 1 ≤ time_cycle (reading_row rd) ≤ N
                 ∧ RUL rd = N - time_cycle (reading_row rd)) as Hrow.
  { intros rd Hrd. apply elem_of_labelled_blocks. rewrite <- Hlab.
    apply list_elem_of_fmap. by exists rd. }
  exists ls, df, st'. split_and!; [done|done|done|done| | |].
  - intros u N c Hin Hc.
    assert ((u, c, N - c) ∈ labelled <$> df) as Hmem.
    { rewrite Hlab. apply elem_of_labelled_blocks. by exists N. }
    apply list_elem_of_fmap in Hmem as (rd & [= Hu Hcy Hr] & Hrd).
    exists rd. by rewrite <- Hu, <- Hcy, <- Hr.
  - intros rd Hrd. destruct (Hrow rd Hrd) as (N & Hin & Hc & Hr).
    exists N. split_and!; [done|lia|lia|done|lia|lia].
  - intros r1 r2 Hr1 Hr2 Hsame Hlater.
    destruct (Hrow r1 Hr1) as (N1 & Hin1 & Hc1 & ->).
    destruct (Hrow r2 Hr2) as (N2 & Hin2 & Hc2 & ->).
    rewrite Hsame in Hin1.
    pose proof (NoDup_fst_functional ls _ N1 N2 Hnd Hin1 Hin2). lia.
Qed.

(** The lifespans of the method as shipped: each of the 100 units lives
    between 150 and 349 cycles, whatever the generator does. *)
Lemma shipped_lifespans_below_350 :
  ∃ ls, unit_lifespans shipped_params = Ok ls
        ∧ ls.*1 = seqZ 1 100
        ∧ Forall (λ uN, 150 ≤ uN.2 ≤ 349) ls.
Proof.
  destruct (create_total shipped_params (np_seed 0))
    as (ls & df & st' & _ & Hls & Hfst & Hall & _); [simpl; lia|].
  exists ls. split_and!; [done|done|].
  eapply Forall_impl; [exact Hall|]. simpl. intros [u N]. simpl. lia.
Qed.

(** C6.  The generator's outcome (the table, or the exception) and the
    generator state it leaves behind are functions of the parameters
    alone: the state of the NumPy generator found on entry plays no
    part, because the method starts by seeding it.  In particular a
    second run, started in the state the first run left behind, returns
    the same table, element for element. *)
Theorem C6_generator_deterministic (p : gen_params) (ambient1 ambient2 : rng) :
  create_nasa_sample_data_with p ambient1
  = create_nasa_sample_data_with p ambient2
  ∧ match create_nasa_sample_data_with p ambient1 with
    | Ok (df, st') =>
        create_nasa_sample_data_with p st' = Ok (df, st')
        ∧ ∃ df2 st2, create_nasa_sample_data_with p ambient2 = Ok (df2, st2)
                     ∧ length df2 = length df
                     ∧ ∀ i : nat, df2 !! i = df !! i
    | Raise e => create_nasa_sample_data_with p ambient2 = Raise e
    end.
Proof.
  assert (∀ a b : rng, create_nasa_sample_data_with p a
                       = create_nasa_sample_data_with p b) as Hsame
    by reflexivity.
  split; [apply Hsame|].
  destruct (create_nasa_sample_data_with p ambient1) as [[df st']|e] eqn:Hrun.
  - split.
    + by rewrite (Hsame st' ambient1).
    + exists df, st'. by rewrite (Hsame ambient2 ambient1).
  - by rewrite (Hsame ambient2 ambient1).
Qed.
End GeneratorClaims.

(** The table of the small instance under the congruential generator:
    two units of lifespan 4. *)
Example small_table :
  match create_nasa_sample_data_with (rng:=Z) small_params 0 with
  | Ok (df, _) => labelled <$> df
  | Raise _ => []
  end
  = [ (1, 1, 3); (1, 2, 2); (1, 3, 1); (1, 4, 0);
      (2, 1, 3); (2, 2, 2); (2, 3, 1); (2, 4, 0) ].
Proof. vm_compute. reflexivity. Qed.

Lemma C1_rul_is_lifespan_minus_cycle_witness :
  min_cycles small_params < max_cycles small_params
  ∧ ∃ ls df st',
      create_nasa_sample_data_with (rng:=Z) small_params 0 = Ok (df, st')
      ∧ unit_lifespans (rng:=Z) small_params = Ok ls
      ∧ ∀ rd, rd ∈ df → 0 ≤ RUL rd.
Proof.
  assert (min_cycles small_params < max_cycles small_params) as Hlt
    by (simpl; lia).
  split; [exact Hlt|].
  destruct (C1_rul_is_lifespan_minus_cycle small_params (0 : Z) Hlt)
    as (ls & df & st' & Hcreate & Hls & _ & _ & _ & Hrow & _).
  exists ls, df, st'. split_and!; [done|done|].
  intros rd Hrd. destruct (Hrow rd Hrd) as (N & _ & _ & _ & Hnonneg & _).
  exact Hnonneg.
Defined.

(** ** The aggregate query *)

Lemma sql_sum_int_cons {A} (g : A → Z) (e : A) (h : list A) :
  sql_sum_int (g <$> e :: h) = Some (foldl Z.add 0 (g <$> e :: h)).
Proof. reflexivity. Qed.

Lemma sql_sum_real_cons {A} (g : A → Q) (e : A) (h : list A) :
  sql_sum_real (g <$> e :: h) = Some (foldl Qplus 0%Q (g <$> e :: h)).
Proof. reflexivity. Qed.

Lemma sum_ones {A} (l : list A) :
  foldr Z.add 0 ((λ _, 1) <$> l) = Z.of_nat (length l).
Proof. induction l as [|x l IH]; [done|]. rewrite fmap_cons. simpl. lia. Qed.

Section CaseSums.
Variable f : maintenance_record → Z.
Variable fq : maintenance_record → Q.

Lemma sum_case_predictive (h : list maintenance_record) (a : Z) :
  foldl Z.add a ((λ e, if is_predictive e then f e else 0) <$> h)
  = a + foldr Z.add 0 (f <$> predictive_events h).
Proof.
  unfold predictive_events.
  revert a. induction h as [|e h IH]; intros a; [simpl; lia|].
  rewrite fmap_cons. simpl foldl. rewrite IH.
  destruct (is_predictive e) eqn:He.
  - rewrite filter_cons_True, fmap_cons by done. simpl. lia.
  - rewrite filter_cons_False by (by rewrite He). lia.
Qed.

Lemma sum_case_reactive (h : list maintenance_record) (a : Z) :
  foldl Z.add a ((λ e, if is_predictive e then 0 else f e) <$> h)
  = a + foldr Z.add 0 (f <$> reactive_events h).
Proof.
  unfold reactive_events.
  revert a. induction h as [|e h IH]; intros a; [simpl; lia|].
  rewrite fmap_cons. simpl foldl. rewrite IH.
  destruct (is_predictive e) eqn:He.
  - rewrite filter_cons_False by (by rewrite He). lia.
  - rewrite filter_cons_True, fmap_cons by done. simpl. lia.
Qed.

Lemma sum_case_predictive_real (h : list maintenance_record) (a : Q) :
  (foldl Qplus a ((λ e, if is_predictive e then fq e else 0) <$> h)
   == a + foldr Qplus 0 (fq <$> predictive_events h))%Q.
Proof.
  unfold predictive_events.
  revert a. induction h as [|e h IH]; intros a; [simpl; ring|].
  rewrite fmap_cons. simpl foldl. rewrite IH.
  destruct (is_predictive e) eqn:He.
  - rewrite filter_cons_True, fmap_cons by done. simpl. ring.
  - rewrite filter_cons_False by (by rewrite He). ring.
Qed.

Lemma sum_case_reactive_real (h : list maintenance_record) (a : Q) :
  (foldl Qplus a ((λ e, if is_predictive e then 0 else fq e) <$> h)
   == a + foldr Qplus 0 (fq <$> reactive_events h))%Q.
Proof.
  unfold reactive_events.
  revert a. induction h as [|e h IH]; intros a; [simpl; ring|].
  rewrite fmap_cons. simpl foldl. rewrite IH.
  destruct (is_predictive e) eqn:He.
  - rewrite filter_cons_False by (by rewrite He). ring.
  - rewrite filter_cons_True, fmap_cons by done. simpl. ring.
Qed.
End CaseSums.

(** The query and the savings arithmetic on a non-empty history. *)
Lemma analytics_of_cons (e : maintenance_record) (h : list maintenance_record) :
  let history := e :: h in
  let n := count (predictive_events history) in
  ∃ pc rc,
    (pc == cost_sum (predictive_events history))%Q
    ∧ (rc == cost_sum (reactive_events history))%Q
    ∧ analytics_of history
      = Ok {| total_maintenance_events := Some (count history);
              predictive_maintenance_count := Some n;
              reactive_maintenance_count := Some (count (reactive_events history));
              total_cost_predictive := Some pc;
              total_cost_reactive := Some rc;
              total_savings := Some (inject_Z (n * 52000) - pc)%Q;
              downtime_hours_saved :=
                Some (n * 48 - downtime_sum (predictive_events history));
              flights_cancelled_avoided := Some (n * 3) |}.
Proof.
  intros history n.
  exists (foldl Qplus 0%Q
            ((λ e, if is_predictive e then total_cost e else 0%Q) <$> history)),
         (foldl Qplus 0%Q
            ((λ e, if is_predictive e then 0%Q else total_cost e) <$> history)).
  split_and!.
  - rewrite sum_case_predictive_real. unfold cost_sum. ring.
  - rewrite sum_case_reactive_real. unfold cost_sum. ring.
  - unfold analytics_of, select_aggregates, calculate_savings, analytics_row.
    subst history. cbn [pred_count react_count pred_cost react_cost
                        pred_downtime react_downtime total_events].
    rewrite !sql_sum_int_cons, !sql_sum_real_cons.
    rewrite (sum_case_predictive (λ _, 1)), (sum_case_reactive (λ _, 1)),
      (sum_case_predictive downtime_hours), !sum_ones.
    unfold downtime_sum, count in *. subst n. simpl. 
    repeat f_equal; lia.
Qed.

Lemma aggregate_of_history (db : database) (row : cost_analytics_row) :
  analytics_of (maintenance_history db) = Ok row →
  aggregate_cost_analytics db
  = Ok (insert_or_replace_cost_analytics period_label row db).
Proof. unfold aggregate_cost_analytics. by intros ->. Qed.

Lemma analytics_of_nonempty (history : list maintenance_record) :
  history ≠ [] → ∃ row, analytics_of history = Ok row.
Proof.
  destruct history as [|e h]; [done|]. intros _.
  destruct (analytics_of_cons e h) as (pc & rc & _ & _ & Hrow). eauto.
Qed.

(** ** Cost analytics: the claims *)

(** C2.  On every non-empty event set the aggregator returns a row whose
    savings are the constant-multiplied counterfactual: with [n] the
    number of predictive events and [pc] the sum of their total costs,
    [total_savings = n * 52000 - pc],
    [downtime_hours_saved = n * 48 - (predictive downtime)] and
    [flights_cancelled_avoided = n * 3].  For the 12 predictive and 3
    reactive records the method inserts, the row is
    (15, 12, 3, 78000, 156000, 546000, 504, 36), and that is the row the
    method stores for the period on a fresh database. *)
Theorem C2_counterfactual_savings :
  (∀ (e : maintenance_record) (h : list maintenance_record),
     let history := e :: h in
     let n := count (predictive_events history) in
     ∃ row pc s,
       analytics_of history = Ok row
       ∧ predictive_maintenance_count row = Some n
       ∧ total_cost_predictive row = Some pc
       ∧ (pc == cost_sum (predictive_events history))%Q
       ∧ total_savings row = Some s
       ∧ (s == inject_Z (n * 52000) - pc)%Q
       ∧ downtime_hours_saved row
         = Some (n * 48 - downtime_sum (predictive_events history))
       ∧ flights_cancelled_avoided row = Some (n * 3))
  ∧ (∀ today, analytics_of (synthesize_records 12 3 today) = Ok shipped_analytics)
  ∧ (∀ today, ∃ db',
       generate_cost_analytics today empty_database = Ok db'
       ∧ get_cost_calculator_data db' = Some shipped_analytics).
Proof.
  split_and!.
  - intros e h history n.
    destruct (analytics_of_cons e h) as (pc & rc & Hpc & _ & Hrow).
    eexists _, pc, _. split; [exact Hrow|]. simpl. by split_and!.
  - intros today. vm_compute. reflexivity.
  - intros today.
    exists (insert_or_replace_cost_analytics period_label shipped_analytics
              (insert_maintenance_history (maintenance_records today)
                 empty_database)).
    split.
    + unfold generate_cost_analytics, generate_cost_analytics_with.
      apply aggregate_of_history. vm_compute. reflexivity.
    + unfold get_cost_calculator_data. simpl. apply lookup_insert_eq.
Qed.

(** The aggregation of an empty [maintenance_history], which the method
    never meets because it inserts its 15 records before the query: the
    query returns a count of 0 and NULL for each of the six sums, the
    savings arithmetic raises [TypeError] and no row is written. *)
Remark empty_history_aggregation :
  select_aggregates []
  = {| total_events := 0; pred_count := None; react_count := None;
       pred_cost := None; react_cost := None;
       pred_downtime := None; react_downtime := None |}
  ∧ analytics_of [] = Raise TypeError
  ∧ (∀ sup parts analytics,
       aggregate_cost_analytics
         {| suppliers := sup; supplier_parts := parts;
            maintenance_history := []; cost_analytics := analytics |}
       = Raise TypeError).
Proof. by split_and!. Qed.

(** The method as a whole is not idempotent: it inserts its 15 records
    on each run, so a second run aggregates 30 events. *)
Remark generate_cost_analytics_twice (today1 today2 : Z) :
  match generate_cost_analytics today1 empty_database
        ≫= generate_cost_analytics today2 with
  | Ok db2 => get_cost_calculator_data db2
  | Raise _ => None
  end
  = Some {| total_maintenance_events := Some 30;
            predictive_maintenance_count := Some 24;
            reactive_maintenance_count := Some 6;
            total_cost_predictive := Some 156000%Q;
            total_cost_reactive := Some 312000%Q;
            total_savings := Some 1092000%Q;
            downtime_hours_saved := Some 1008;
            flights_cancelled_avoided := Some 72 |}.
Proof. vm_compute. reflexivity. Qed.

Lemma cost_sum_const (c : Q) (l : list maintenance_record) :
  (∀ e, e ∈ l → (total_cost e == c)%Q) →
  (cost_sum l == c * inject_Z (count l))%Q.
Proof.
  unfold cost_sum, count. induction l as [|e l IH]; intros Hall.
  - simpl. ring.
  - rewrite fmap_cons. simpl foldr. rewrite IH, (Hall e) by set_solver.
    replace (Z.of_nat (length (e :: l))) with (1 + Z.of_nat (length l))
      by (simpl; lia).
    rewrite inject_Z_plus. ring.
Qed.

Lemma inject_Z_nonzero (n : Z) : n ≠ 0 → ¬ (inject_Z n == 0)%Q.
Proof. intros Hn Heq. unfold Qeq in Heq. simpl in Heq. lia. Qed.

(** C10.  When every predictive event of the history costs 6500 and
    there is at least one, the aggregation succeeds, the savings it
    stores are 45500 times the number of predictive events, and the
    cost-reduction percentage [generate_report] computes from the stored
    row is 87.5, the literal [view_all_data] prints. *)
Theorem C10_constant_cost_reduction (db : database) :
  (∀ e, e ∈ maintenance_history db → is_predictive e = true →
        (total_cost e == 6500)%Q) →
  0 < count (predictive_events (maintenance_history db)) →
  ∃ db' row s pct,
    aggregate_cost_analytics db = Ok db'
    ∧ get_cost_calculator_data db' = Some row
    ∧ predictive_maintenance_count row
      = Some (count (predictive_events (maintenance_history db)))
    ∧ total_savings row = Some s
    ∧ (s == 45500 * inject_Z (count (predictive_events (maintenance_history db))))%Q
    ∧ report_savings_pct db' = Ok (Some pct)
    ∧ (pct == 87.5)%Q
    ∧ view_cost_reduction db' = Ok (Some 87.5%Q).
Proof.
  intros Hcost Hpos.
  destruct (maintenance_history db) as [|e h] eqn:Hhist; [done|].
  set (n := count (predictive_events (e :: h))) in *.
  destruct (analytics_of_cons e h) as (pc & rc & Hpc & _ & Hrow).
  fold n in Hrow.
  assert (pc == 6500 * inject_Z n)%Q as Hpc'.
  { rewrite Hpc. apply cost_sum_const. intros e' He'.
    apply list_elem_of_filter in He' as [Hpred Hin]. by apply Hcost. }
  assert (¬ (inject_Z n == 0)%Q) as Hn by (apply inject_Z_nonzero; lia).
  eexists _, _, (inject_Z (n * 52000) - pc)%Q,
    ((inject_Z (n * 52000) - pc) / inject_Z (n * 52000) * 100)%Q.
  split_and!.
  - apply aggregate_of_history. rewrite Hhist. exact Hrow.
  - unfold get_cost_calculator_data. simpl. apply lookup_insert_eq.
  - done.
  - done.
  - rewrite Hpc', inject_Z_mult. ring.
  - unfold report_savings_pct, get_cost_calculator_data. simpl.
    rewrite lookup_insert_eq. simpl.
    rewrite decide_False by lia. done.
  - rewrite Hpc', inject_Z_mult. field. done.
  - unfold view_cost_reduction. simpl. by rewrite lookup_insert_eq.
Qed.

Lemma C10_constant_cost_reduction_witness :
  (∀ e, e ∈ maintenance_history recorded_db → is_predictive e = true →
        (total_cost e == 6500)%Q)
  ∧ 0 < count (predictive_events (maintenance_history recorded_db))
  ∧ ∃ db' pct,
      aggregate_cost_analytics recorded_db = Ok db'
      ∧ report_savings_pct db' = Ok (Some pct)
      ∧ (pct == 87.5)%Q.
Proof.
  assert (∀ e, e ∈ maintenance_history recorded_db → is_predictive e = true →
               (total_cost e == 6500)%Q) as Hcost.
  { intros e He Hpred. vm_compute in He.
    repeat (apply elem_of_cons in He as [->|He]; [try done|]).
    by apply elem_of_nil in He. }
  assert (0 < count (predictive_events (maintenance_history recorded_db)))
    as Hpos by (vm_compute; reflexivity).
  split_and!; [exact Hcost|exact Hpos|].
  destruct (C10_constant_cost_reduction recorded_db Hcost Hpos)
    as (db' & row & s & pct & Hagg & _ & _ & _ & _ & Hpct & Heq & _).
  exists db', pct. by split_and!.
Defined.

(** ** The inserted records *)

(** C4, as stated, fails for the reactive records: their total is not
    labour plus parts plus three cancellations at the per-cancellation
    cost. *)
Lemma C4_reactive_total_counterexample :
  ∃ e, e ∈ maintenance_records 0
       ∧ is_predictive e = false
       ∧ ¬ (total_cost e
            == labor_cost e + parts_cost e
               + inject_Z (REACTIVE_FLIGHT_CANCELLATIONS * COST_PER_CANCELLATION))%Q.
Proof.
  exists (reactive_record 0 0). split_and!.
  - unfold maintenance_records, synthesize_records.
    apply elem_of_app. right. apply list_elem_of_fmap.
    exists 0. split; [done|]. apply elem_of_seqZ. lia.
  - done.
  - vm_compute. discriminate.
Qed.

(** C4, amended.  Every predictive record has
    [total_cost = labor_cost + parts_cost].  Every reactive record has
    [total_cost = labor_cost + parts_cost + 3 * 2000 + 15400]: the
    cancellation penalty and the cost of the aircraft downtime. *)
Theorem C4_total_cost_breakdown (predictive_n reactive_n today : Z)
    (e : maintenance_record) :
  e ∈ synthesize_records predictive_n reactive_n today →
  if is_predictive e
  then (total_cost e == labor_cost e + parts_cost e)%Q
  else (total_cost e
        == labor_cost e + parts_cost e
           + inject_Z (REACTIVE_FLIGHT_CANCELLATIONS * COST_PER_CANCELLATION)
           + inject_Z REACTIVE_DOWNTIME_COST)%Q.
Proof.
  unfold synthesize_records. rewrite elem_of_app, !list_elem_of_fmap.
  intros [(i & -> & _)|(i & -> & _)]; reflexivity.
Qed.

Lemma C4_total_cost_breakdown_witness :
  reactive_record 0 0 ∈ synthesize_records 12 3 0
  ∧ (total_cost (reactive_record 0 0)
     == labor_cost (reactive_record 0 0) + parts_cost (reactive_record 0 0)
        + inject_Z (REACTIVE_FLIGHT_CANCELLATIONS * COST_PER_CANCELLATION)
        + inject_Z REACTIVE_DOWNTIME_COST)%Q.
Proof.
  assert (reactive_record 0 0 ∈ synthesize_records 12 3 0) as Hin.
  { unfold synthesize_records. apply elem_of_app. right.
    apply list_elem_of_fmap. exists 0. split; [done|].
    apply elem_of_seqZ. lia. }
  split; [exact Hin|].
  exact (C4_total_cost_breakdown 12 3 0 (reactive_record 0 0) Hin).
Defined.

(** ** [find_best_supplier] *)

Lemma elem_of_offers_for (db : database) (part_number : string) (o : offer) :
  o ∈ offers_for db part_number
  ↔ o.1 ∈ supplier_parts db
    ∧ sp_part_number o.1 = part_number
    ∧ suppliers db !! sp_supplier_id o.1 = Some o.2.
Proof.
  unfold offers_for. rewrite list_elem_of_bind. split.
  - intros (sp & Ho & Hsp). apply list_elem_of_filter in Hsp as [Hpart Hsp].
    destruct (suppliers db !! sp_supplier_id sp) as [s|] eqn:Hs.
    + apply list_elem_of_singleton in Ho as ->. done.
    + by apply elem_of_nil in Ho.
  - destruct o as [sp s]. simpl. intros (Hsp & Hpart & Hs).
    exists sp. rewrite Hs. split; [by apply list_elem_of_singleton|].
    by apply list_elem_of_filter.
Qed.

(** The order of the sort keys is a strict weak order. *)
Ltac sf_cases :=
  unfold null_first, SpecFloat.SFltb, SpecFloat.SFleb, SpecFloat.SFcompare;
  repeat match goal with
         | x : SpecFloat.spec_float |- _ => destruct x as [[]|[]| |[] ? ?]
         end;
  try done;
  change (Pos.compare_cont Eq) with Pos.compare;
  repeat match goal with
         | |- context [Z.compare ?a ?b] => destruct (Z.compare_spec a b)
         | |- context [Pos.compare ?a ?b] => destruct (Pos.compare_spec a b)
         end;
  simpl; try done; try lia.

Lemma null_first_trans (x y z : SpecFloat.spec_float) :
  null_first x y = true → null_first y z = true → null_first x z = true.
Proof. sf_cases. Qed.

Lemma null_first_neg_trans (x y z : SpecFloat.spec_float) :
  null_first x y = false → null_first y z = false → null_first x z = false.
Proof. sf_cases. Qed.

Lemma null_first_leb (x y : SpecFloat.spec_float) :
  x ≠ SpecFloat.S754_nan → y ≠ SpecFloat.S754_nan →
  null_first y x = false → SpecFloat.SFleb x y = true.
Proof. sf_cases. Qed.

Lemma sorts_before_trans (a b c : offer) :
  sorts_before a b = true → sorts_before b c = true → sorts_before a c = true.
Proof. apply null_first_trans. Qed.

Lemma sorts_before_neg_trans (a b c : offer) :
  sorts_before a b = false → sorts_before b c = false →
  sorts_before a c = false.
Proof. apply null_first_neg_trans. Qed.

Lemma order_by_score_nil (l : list offer) :
  order_by_score l = [] → l = [].
Proof.
  destruct l as [|a l]; [done|]. simpl.
  destruct (order_by_score l) as [|h t]; [done|]. simpl.
  by destruct (sorts_before h a).
Qed.

(** The head of the sorted rows is the first row of least score. *)
Lemma order_by_score_head (l : list offer) (o : offer) (rest : list offer) :
  order_by_score l = o :: rest → selected l o.
Proof.
  revert o rest. induction l as [|a l IH]; intros o rest; [done|].
  simpl. destruct (order_by_score l) as [|h t] eqn:Hsorted.
  - apply order_by_score_nil in Hsorted as ->. intros [= <- <-].
    exists [], []. split_and!; [done| |]; by intros x ?%elem_of_nil.
  - destruct (IH h t eq_refl) as (before & after & -> & Hbefore & Hafter).
    simpl. destruct (sorts_before h a) eqn:Hha; intros [= <- <-].
    + exists (a :: before), after. split_and!; [done| |done].
      intros x [->|Hx]%elem_of_cons; [done|by apply Hbefore].
    + exists [], (before ++ h :: after). split_and!; [done| |].
      * by intros x ?%elem_of_nil.
      * intros x [Hx|[->|Hx]%elem_of_cons]%elem_of_app; [|done|].
        -- destruct (sorts_before x a) eqn:Hxa; [|done].
           by rewrite (sorts_before_trans h x a) in Hha by auto.
        -- by apply (sorts_before_neg_trans x h a); [apply Hafter|].
Qed.

Lemma selected_elem (l : list offer) (o : offer) : selected l o → o ∈ l.
Proof. intros (before & after & -> & _). apply elem_of_app. right. by left. Qed.

Lemma selected_least (l : list offer) (o o' : offer) :
  selected l o → o' ∈ l → sorts_before o' o = false.
Proof.
  intros (before & after & -> & Hbefore & Hafter).
  intros [Hx|[->|Hx]%elem_of_cons]%elem_of_app.
  - destruct (sorts_before o' o) eqn:Hlt; [|done].
    pose proof (sorts_before_trans _ _ _ (Hbefore _ Hx) Hlt) as Hrefl.
    unfold sorts_before in Hrefl. revert Hrefl.
    generalize (FloatOps.Prim2SF (score o)). intros x. sf_cases.
  - unfold sorts_before.
    generalize (FloatOps.Prim2SF (score o)). intros x. sf_cases.
  - by apply Hafter.
Qed.

Lemma find_best_supplier_selected (db : database) (part_number : string) :
  offers_for db part_number ≠ [] →
  ∃ o, selected (offers_for db part_number) o
       ∧ find_best_supplier db part_number = Some (summary o).
Proof.
  intros Hne. unfold find_best_supplier.
  destruct (order_by_score (offers_for db part_number)) as [|o rest] eqn:Hsort.
  - by apply order_by_score_nil in Hsort.
  - exists o. split; [|done]. by eapply order_by_score_head.
Qed.

Lemma find_best_supplier_least (db : database) (part_number : string) :
  offers_for db part_number ≠ [] →
  ∃ o, o ∈ offers_for db part_number
       ∧ find_best_supplier db part_number = Some (summary o)
       ∧ ∀ o', o' ∈ offers_for db part_number → sorts_before o' o = false.
Proof.
  intros Hne.
  destruct (find_best_supplier_selected db part_number Hne) as (o & Hsel & Hbest).
  exists o. split_and!; [by apply selected_elem|done|].
  intros o' Ho'. by eapply selected_least.
Qed.


(** The near tie: the exact scores are 398.4 and 398.4 + 0.4 * 2^-46,
    SQLite computes 398.40000000000003 and 398.39999999999998, and the
    second offer is returned. *)
Lemma near_tie_offers :
  ∃ o1 o2,
    offers_for near_tie_db "HPT-8472-A" = [o1; o2]
    ∧ score o1 = 398.40000000000003%float
    ∧ score o2 = 398.39999999999998%float
    ∧ (exact_score o1 < exact_score o2)%Q
    ∧ summary o1 ≠ summary o2
    ∧ find_best_supplier near_tie_db "HPT-8472-A" = Some (summary o2).
Proof.
  eexists _, _. split; [vm_compute; reflexivity|].
  split_and!; [vm_compute; reflexivity..|vm_compute; discriminate|
               vm_compute; reflexivity].
Qed.

(** C3, as stated, fails: the offer returned need not minimise the score
    of the claim.  With the offers (658.5, 2 days, 4.5) and
    (96 + 2^-46, 7 days, 4.0) the second is returned, whose exact score
    is the larger one. *)
Lemma C3_exact_minimum_counterexample :
  ¬ ∀ (db : database) (part_number : string),
      offers_for db part_number ≠ [] →
      ∃ o, o ∈ offers_for db part_number
           ∧ find_best_supplier db part_number = Some (summary o)
           ∧ ∀ o', o' ∈ offers_for db part_number →
                   (exact_score o <= exact_score o')%Q.
Proof.
  intros Hclaim.
  destruct near_tie_offers as (o1 & o2 & Hoffers & _ & _ & Hlt & Hdiff & Hbest2).
  destruct (Hclaim near_tie_db "HPT-8472-A") as (o & Hin & Hbest & Hleast).
  { by rewrite Hoffers. }
  rewrite Hoffers in Hin, Hleast. rewrite Hbest2 in Hbest.
  assert (summary o2 = summary o) as Hsame by congruence.
  apply elem_of_cons in Hin as [->|Hin]; [congruence|].
  apply elem_of_cons in Hin as [->|Hin]; [|by apply elem_of_nil in Hin].
  assert (exact_score o2 <= exact_score o1)%Q as Hle by (apply Hleast; by left).
  exact (Qle_not_lt _ _ Hle Hlt).
Qed.

(** C3, amended.  Whenever the part has at least one offer, the supplier
    returned is that of an offer whose score, computed in binary64 as
    SQLite computes it,
    [unit_price * 0.4 + delivery_days * 100 * 0.3 + (5 - rating) * 500 * 0.3],
    is least: no offer of the part sorts before it, its computed score is
    at most that of every offer when both are numbers, and the offers
    scanned before it have a larger computed score.  For the two offers
    (4200, 5 days, 4.8) and (4000, 7 days, 4.5) the computed scores are
    1860 and 1885 and the first is returned. *)
Theorem C3_best_supplier_minimises_score :
  (∀ (db : database) (part_number : string),
     offers_for db part_number ≠ [] →
     ∃ o, o ∈ offers_for db part_number
          ∧ find_best_supplier db part_number = Some (summary o)
          ∧ score o
            = (real_of_Q (sp_unit_price o.1) * 0.4
               + days_times_100 (sp_delivery_days o.1) * 0.3
               + (5 - real_of_Q (s_rating o.2)) * 500 * 0.3)%float
          ∧ selected (offers_for db part_number) o
          ∧ ∀ o', o' ∈ offers_for db part_number →
                  sorts_before o' o = false
                  ∧ (FloatOps.Prim2SF (score o) ≠ SpecFloat.S754_nan →
                     FloatOps.Prim2SF (score o') ≠ SpecFloat.S754_nan →
                     SpecFloat.SFleb (FloatOps.Prim2SF (score o))
                       (FloatOps.Prim2SF (score o')) = true))
  ∧ (∃ o1 o2,
       offers_for two_offer_db "HPT-8472-A" = [o1; o2]
       ∧ sp_unit_price o1.1 = 4200%Q ∧ sp_delivery_days o1.1 = 5
       ∧ s_rating o1.2 = 4.8%Q
       ∧ sp_unit_price o2.1 = 4000%Q ∧ sp_delivery_days o2.1 = 7
       ∧ s_rating o2.2 = 4.5%Q
       ∧ score o1 = 1860%float ∧ score o2 = 1885%float
       ∧ find_best_supplier two_offer_db "HPT-8472-A" = Some (summary o1)).
Proof.
  split.
  - intros db part_number Hne.
    destruct (find_best_supplier_selected db part_number Hne)
      as (o & Hsel & Hbest).
    exists o. split_and!; [by apply selected_elem|done|done|done|].
    intros o' Ho'. pose proof (selected_least _ _ _ Hsel Ho') as Hleast.
    split; [done|]. intros Ho Hnum. by apply null_first_leb.
  - eexists _, _. split; [vm_compute; reflexivity|].
    split_and!; vm_compute; reflexivity.
Qed.

Lemma C3_best_supplier_minimises_score_witness :
  offers_for two_offer_db "HPT-8472-A" ≠ []
  ∧ ∃ o, o ∈ offers_for two_offer_db "HPT-8472-A"
         ∧ find_best_supplier two_offer_db "HPT-8472-A" = Some (summary o)
         ∧ ∀ o', o' ∈ offers_for two_offer_db "HPT-8472-A" →
                 sorts_before o' o = false.
Proof.
  assert (offers_for two_offer_db "HPT-8472-A" ≠ []) as Hne
    by (vm_compute; discriminate).
  split; [exact Hne|].
  destruct (proj1 C3_best_supplier_minimises_score two_offer_db "HPT-8472-A" Hne)
    as (o & Hin & Hbest & _ & _ & Hleast).
  exists o. split_and!; [done|done|]. intros o' Ho'. by apply Hleast.
Defined.

(** Offers with equal computed scores: the one stored first is
    returned, also when the scores differ in exact arithmetic and the
    other offer has the smaller exact score. *)
Example tied_offers_first_wins :
  (∃ o1 o2 o3,
     offers_for tied_db "HPT-8472-A" = [o1; o2; o3]
     ∧ score o1 = score o2 ∧ score o2 = score o3
     ∧ find_best_supplier tied_db "HPT-8472-A" = Some (summary o1)
     ∧ supplier (summary o1) = "Pratt & Whitney Supply")
  ∧ (∃ o1 o2,
       offers_for rounding_tie_db "HPT-8472-A" = [o1; o2]
       ∧ score o1 = 1806.5039999999999%float
       ∧ score o2 = 1806.5039999999999%float
       ∧ (exact_score o2 < exact_score o1)%Q
       ∧ find_best_supplier rounding_tie_db "HPT-8472-A" = Some (summary o1)
       ∧ supplier (summary o1) = "GE Aviation Parts").
Proof.
  split.
  - eexists _, _, _. split; [vm_compute; reflexivity|].
    split_and!; vm_compute; reflexivity.
  - eexists _, _. split; [vm_compute; reflexivity|].
    split_and!; vm_compute; reflexivity.
Qed.



(** * Further properties *)

(** ** Aggregation over several event sets *)

Lemma predictive_events_app (h1 h2 : list maintenance_record) :
  predictive_events (h1 ++ h2) = predictive_events h1 ++ predictive_events h2.
Proof. apply filter_app. Qed.

Lemma reactive_events_app (h1 h2 : list maintenance_record) :
  reactive_events (h1 ++ h2) = reactive_events h1 ++ reactive_events h2.
Proof. apply filter_app. Qed.

Lemma count_app (h1 h2 : list maintenance_record) :
  count (h1 ++ h2) = count h1 + count h2.
Proof. unfold count. rewrite length_app. lia. Qed.

Lemma cost_sum_app (h1 h2 : list maintenance_record) :
  (cost_sum (h1 ++ h2) == cost_sum h1 + cost_sum h2)%Q.
Proof.
  unfold cost_sum. induction h1 as [|e h1 IH].
  - rewrite app_nil_l, fmap_nil. cbn [foldr]. by rewrite Qplus_0_l.
  - rewrite <- app_comm_cons, !fmap_cons. cbn [foldr].
    rewrite IH. ring.
Qed.

Lemma downtime_sum_app (h1 h2 : list maintenance_record) :
  downtime_sum (h1 ++ h2) = downtime_sum h1 + downtime_sum h2.
Proof.
  unfold downtime_sum. induction h1 as [|e h1 IH]; [done|].
  rewrite <- app_comm_cons, !fmap_cons. cbn [foldr]. rewrite IH. lia.
Qed.

(** Aggregating two non-empty event sets together gives, column by
    column, the sum of aggregating them apart: the counts, the downtime
    saved and the flights saved add up exactly, the two cost sums and
    the savings add up as amounts. *)
Theorem aggregation_additive (e1 e2 : maintenance_record)
    (h1 h2 : list maintenance_record) :
  ∃ r1 r2 r,
    analytics_of (e1 :: h1) = Ok r1
    ∧ analytics_of (e2 :: h2) = Ok r2
    ∧ analytics_of ((e1 :: h1) ++ (e2 :: h2)) = Ok r
    ∧ Forall3 (λ a b c, ∃ x y, a = Some x ∧ b = Some y ∧ c = Some (x + y))
        (int_columns r1) (int_columns r2) (int_columns r)
    ∧ Forall3 (λ a b c, ∃ x y z, a = Some x ∧ b = Some y ∧ c = Some z
                                 ∧ (z == x + y)%Q)
        (real_columns r1) (real_columns r2) (real_columns r).
Proof.
  destruct (analytics_of_cons e1 h1) as (pc1 & rc1 & Hpc1 & Hrc1 & Hr1).
  destruct (analytics_of_cons e2 h2) as (pc2 & rc2 & Hpc2 & Hrc2 & Hr2).
  destruct (analytics_of_cons e1 (h1 ++ e2 :: h2)) as (pc & rc & Hpc & Hrc & Hr).
  change (e1 :: h1 ++ e2 :: h2) with ((e1 :: h1) ++ (e2 :: h2)) in *.
  rewrite predictive_events_app in *. rewrite reactive_events_app in *.
  rewrite !count_app, downtime_sum_app in Hr.
  rewrite cost_sum_app in Hpc, Hrc.
  eexists _, _, _. split_and!; [exact Hr1|exact Hr2|exact Hr| |].
  - unfold int_columns. simpl.
    repeat constructor; eexists _, _; (split_and!; [done|done|f_equal; lia]).
  - unfold real_columns. simpl.
    repeat constructor; eexists _, _, _; (split_and!; [done|done|done|]).
    + by rewrite Hpc, Hpc1, Hpc2.
    + by rewrite Hrc, Hrc1, Hrc2.
    + rewrite Hpc, <- Hpc1, <- Hpc2.
      rewrite !inject_Z_mult, inject_Z_plus. ring.
Qed.

(** ** [generate_cost_analytics] as a whole *)

Lemma generate_cost_analytics_ok (today : Z) (db : database) :
  ∃ row,
    analytics_of (maintenance_history db ++ maintenance_records today) = Ok row
    ∧ generate_cost_analytics today db
      = Ok (insert_or_replace_cost_analytics period_label row
              (insert_maintenance_history (maintenance_records today) db)).
Proof.
  destruct (analytics_of_nonempty
              (maintenance_history db ++ maintenance_records today))
    as (row & Hrow).
  { intros Hnil. apply (f_equal length) in Hnil.
    rewrite length_app in Hnil.
    assert (length (maintenance_records today) = 15%nat) by done.
    simpl in Hnil. lia. }
  exists row. split; [done|].
  unfold generate_cost_analytics, generate_cost_analytics_with.
  by apply aggregate_of_history.
Qed.

(** Whenever the method succeeds, it has appended its 15 records after
    the events already stored, rewritten the row of its own period only
    and left the supplier tables alone, so the answer of
    [find_best_supplier] is the same before and after. *)
Theorem generate_cost_analytics_frame (today : Z) (db db' : database) :
  generate_cost_analytics today db = Ok db' →
  maintenance_history db'
  = maintenance_history db ++ maintenance_records today
  ∧ suppliers db' = suppliers db
  ∧ supplier_parts db' = supplier_parts db
  ∧ (∀ other, other ≠ period_label →
       cost_analytics db' !! other = cost_analytics db !! other)
  ∧ (∀ part_number,
       find_best_supplier db' part_number = find_best_supplier db part_number).
Proof.
  intros Hrun.
  destruct (generate_cost_analytics_ok today db) as (row & _ & Hrun').
  rewrite Hrun' in Hrun. injection Hrun as <-. split_and!; try done.
  intros other Hother. simpl. by rewrite lookup_insert_ne.
Qed.

Lemma generate_cost_analytics_frame_witness :
  ∃ db',
    generate_cost_analytics 0 two_offer_db = Ok db'
    ∧ find_best_supplier db' "HPT-8472-A"
      = find_best_supplier two_offer_db "HPT-8472-A".
Proof.
  destruct (generate_cost_analytics_ok 0 two_offer_db) as (row & _ & Hrun).
  eexists. split; [exact Hrun|].
  destruct (generate_cost_analytics_frame 0 two_offer_db _ Hrun)
    as (_ & _ & _ & _ & Hbest).
  apply Hbest.
Defined.


Lemma report_savings_pct_row (db : database) (row : cost_analytics_row)
    (n : Z) (pc rc s : Q) :
  get_cost_calculator_data db = Some row →
  predictive_maintenance_count row = Some n → n ≠ 0 →
  total_cost_predictive row = Some pc →
  total_cost_reactive row = Some rc →
  total_savings row = Some s →
  report_savings_pct db = Ok (Some (s / inject_Z (n * 52000) * 100)%Q).
Proof.
  intros Hget Hn Hnz Hpc Hrc Hs. unfold report_savings_pct.
  rewrite Hget, Hpc, Hrc, Hs, Hn. simpl.
  by rewrite decide_False by lia.
Qed.

(** ** Running the method again *)




(** ** More on [find_best_supplier] *)

Lemma offers_for_app (db : database) (part_number : string)
    (rows1 rows2 : list supplier_part_row) :
  offers_for (with_supplier_parts (rows1 ++ rows2) db) part_number
  = offers_for (with_supplier_parts rows1 db) part_number
    ++ offers_for (with_supplier_parts rows2 db) part_number.
Proof.
  unfold offers_for. simpl. by rewrite filter_app, bind_app.
Qed.

Lemma offers_for_singleton (db : database) (part_number : string)
    (sp : supplier_part_row) :
  offers_for (with_supplier_parts [sp] db) part_number
  = if decide (sp_part_number sp = part_number)
    then match suppliers db !! sp_supplier_id sp with
         | Some s => [(sp, s)]
         | None => []
         end
    else [].
Proof.
  unfold offers_for. simpl. destruct (decide _) as [Heq|Hne].
  - rewrite filter_cons_True by done. rewrite filter_nil.
    rewrite bind_cons. simpl. by rewrite app_nil_r.
  - by rewrite filter_cons_False by done.
Qed.

Lemma with_supplier_parts_id (db : database) :
  with_supplier_parts (supplier_parts db) db = db.
Proof. by destruct db. Qed.

(** A [supplier_parts] row for another part, or one whose supplier is
    not in [suppliers], has no influence on the answer: deleting it
    leaves the result unchanged. *)
Theorem best_supplier_ignores_unrelated_rows (db : database)
    (part_number : string) (before after : list supplier_part_row)
    (sp : supplier_part_row) :
  supplier_parts db = before ++ sp :: after →
  sp_part_number sp ≠ part_number ∨ suppliers db !! sp_supplier_id sp = None →
  find_best_supplier db part_number
  = find_best_supplier (with_supplier_parts (before ++ after) db) part_number.
Proof.
  intros Hrows Hunrelated. unfold find_best_supplier.
  rewrite <- (with_supplier_parts_id db) at 1. rewrite Hrows.
  replace (before ++ sp :: after) with (before ++ [sp] ++ after) by done.
  rewrite !offers_for_app, offers_for_singleton.
  destruct (decide _) as [Heq|Hne]; [|done].
  destruct Hunrelated as [Hne|Hnone]; [done|]. by rewrite Hnone.
Qed.

Lemma best_supplier_ignores_unrelated_rows_witness :
  find_best_supplier
    (with_supplier_parts
       (supplier_parts two_offer_db
        ++ [{| sp_supplier_id := "SUP-999"; sp_part_number := "HPT-8472-A";
               sp_unit_price := 1; sp_min_quantity := 1;
               sp_delivery_days := 1 |}])
       two_offer_db)
    "HPT-8472-A"
  = find_best_supplier two_offer_db "HPT-8472-A".
Proof.
  rewrite (best_supplier_ignores_unrelated_rows _ "HPT-8472-A"
             (supplier_parts two_offer_db) []
             {| sp_supplier_id := "SUP-999"; sp_part_number := "HPT-8472-A";
                sp_unit_price := 1; sp_min_quantity := 1;
                sp_delivery_days := 1 |}).
  - vm_compute. reflexivity.
  - reflexivity.
  - right. vm_compute. reflexivity.
Defined.

(** ** The RUL pass on an arbitrary frame *)

Lemma length_bind_sum {A B} (f : A → list B) (l : list A) :
  length (l ≫= f) = sum_list ((λ x, length (f x)) <$> l).
Proof.
  induction l as [|x l IH]; [done|].
  rewrite bind_cons, length_app, fmap_cons, IH. done.
Qed.

Lemma elem_of_unique_from (seen l : list Z) (x : Z) :
  x ∈ unique_from seen l ↔ x ∈ l ∧ x ∉ seen.
Proof.
  revert seen. induction l as [|y l IH]; intros seen; simpl.
  - split; [by intros ?%elem_of_nil | by intros [?%elem_of_nil _]].
  - destruct (decide (y ∈ seen)) as [Hseen|Hfresh].
    + rewrite IH. split.
      * intros [Hx Hnot]. split; [by right|done].
      * intros [Hx Hnot]. split; [|done].
        apply elem_of_cons in Hx as [->|Hx]; [by destruct Hnot|done].
    + rewrite elem_of_cons, IH. split.
      * intros [->|[Hx Hnot]].
        -- split; [by left|done].
        -- split; [by right|]. intros Hs. apply Hnot. by right.
      * intros [Hx Hnot]. apply elem_of_cons in Hx as [->|Hx]; [by left|].
        destruct (decide (x = y)) as [->|Hne]; [by left|].
        right. split; [done|]. intros Hs.
        apply elem_of_cons in Hs as [?|?]; done.
Qed.

Lemma NoDup_unique_from (seen l : list Z) : NoDup (unique_from seen l).
Proof.
  revert seen. induction l as [|y l IH]; intros seen; simpl; [constructor|].
  destruct (decide (y ∈ seen)); [apply IH|].
  constructor; [|apply IH].
  rewrite elem_of_unique_from. intros [_ Hnot]. apply Hnot. by left.
Qed.

Lemma rul_pass_bind (df : list row) :
  rul_pass df = unique (unit_id <$> df) ≫= λ u, rul_for_unit df [] u.
Proof.
  unfold rul_pass.
  by rewrite (foldl_app_bind (λ u, rul_for_unit df [] u))
    by apply rul_for_unit_app.
Qed.

Lemma length_rul_for_unit (df : list row) (u : Z) :
  length (rul_for_unit df [] u) = length (filter (λ r, unit_id r = u) df).
Proof.
  unfold rul_for_unit.
  destruct (filter (λ r, unit_id r = u) df) as [|r rows]; [done|].
  rewrite fmap_cons. cbn [series_max]. rewrite foldl_snoc_fmap.
  by rewrite app_nil_l, length_fmap.
Qed.

Lemma indicator_sum (us : list Z) (x : Z) :
  NoDup us → x ∈ us →
  sum_list ((λ u, if decide (x = u) then 1 else 0)%nat <$> us) = 1%nat.
Proof.
  induction us as [|u us IH]; [by intros _ ?%elem_of_nil|].
  rewrite NoDup_cons, elem_of_cons, fmap_cons. intros [Hnin Hnd] Hx.
  cbn [sum_list]. destruct (decide (x = u)) as [->|Hne].
  - rewrite sum_list_fmap_same with (n := 0%nat); [unfold id; lia|].
    apply Forall_forall. intros u' Hu'. rewrite decide_False; [done|].
    by intros ->.
  - destruct Hx as [->|Hx]; [done|]. by rewrite IH.
Qed.

Lemma unit_counts_partition (us : list Z) (df : list row) :
  NoDup us → (∀ r, r ∈ df → unit_id r ∈ us) →
  sum_list ((λ u, length (filter (λ r, unit_id r = u) df)) <$> us) = length df.
Proof.
  intros Hnd. induction df as [|r df IH]; intros Hcover.
  - rewrite sum_list_fmap_same with (n := 0%nat); [simpl; lia|].
    by apply Forall_forall.
  - assert (sum_list ((λ u, length (filter (λ r0, unit_id r0 = u) (r :: df))) <$> us)
            = (sum_list ((λ u, if decide (unit_id r = u) then 1 else 0)%nat <$> us)
               + sum_list ((λ u, length (filter (λ r0, unit_id r0 = u) df)) <$> us))%nat)
      as ->.
    { clear. induction us as [|u us IHus]; [done|].
      rewrite !fmap_cons. cbn [sum_list]. rewrite IHus. unfold id.
      destruct (decide (unit_id r = u)).
      - rewrite filter_cons_True by done. simpl. lia.
      - rewrite filter_cons_False by done. lia. }
    rewrite indicator_sum, IH; [done| |done|].
    + intros r' Hr'. apply Hcover. by right.
    + apply Hcover. by left.
Qed.

(** On every frame, whatever the order of its rows, the second pass
    produces exactly one RUL value per row, so the assignment of the
    column never fails. *)
Theorem rul_pass_fits_any_frame (df : list row) :
  length (rul_pass df) = length df
  ∧ assign_RUL df (rul_pass df)
    = Ok (zip_with Build_reading df (rul_pass df)).
Proof.
  assert (length (rul_pass df) = length df) as Hlen.
  { rewrite rul_pass_bind, length_bind_sum.
    rewrite <- (unit_counts_partition (unique (unit_id <$> df)) df).
    - f_equal. apply list_fmap_ext. intros _ u _. apply length_rul_for_unit.
    - apply NoDup_unique_from.
    - intros r Hr. apply elem_of_unique_from. split; [|apply not_elem_of_nil].
      apply list_elem_of_fmap. by exists r. }
  split; [exact Hlen|]. unfold assign_RUL. by rewrite decide_True.
Qed.

(** ** The RUL pass on a frame grouped by unit *)

Lemma series_max_spec (cs : list Z) (m : Z) :
  series_max cs = Some m → m ∈ cs ∧ Forall (λ c, c ≤ m) cs.
Proof.
  destruct cs as [|c cs]; [done|]. simpl. intros [= <-].
  revert c. induction cs as [|c' cs IH]; intros c; simpl.
  - split; [by left|]. by constructor.
  - destruct (IH (Z.max c c')) as [Hin Hall]. split.
    + apply elem_of_cons in Hin as [Heq|Hin]; [|by do 2 right].
      rewrite Heq. destruct (Z.max_spec c c') as [[_ ->]|[_ ->]];
        [right; by left|by left].
    + apply Forall_cons in Hall as [Hc Hall].
      repeat constructor; [lia|lia|done].
Qed.

Lemma filter_groups_notin (gs : list (Z * list Z)) (u : Z) :
  u ∉ gs.*1 → filter (λ k : Z * Z, k.1 = u) (gs ≫= group_block) = [].
Proof.
  induction gs as [|[u' cs] gs IH]; [done|].
  rewrite fmap_cons, not_elem_of_cons. intros [Hne Hnin].
  rewrite bind_cons, filter_app, IH by done.
  unfold group_block. rewrite filter_unit_fmap. simpl.
  by rewrite decide_False by done.
Qed.

Lemma filter_groups (gs : list (Z * list Z)) (u : Z) (cs : list Z) :
  NoDup gs.*1 → (u, cs) ∈ gs →
  filter (λ k : Z * Z, k.1 = u) (gs ≫= group_block) = group_block (u, cs).
Proof.
  induction gs as [|[u' cs'] gs IH]; [by intros _ ?%elem_of_nil|].
  rewrite fmap_cons, NoDup_cons. intros [Hnin Hnd] Hin.
  rewrite bind_cons, filter_app. unfold group_block at 1.
  rewrite filter_unit_fmap. simpl.
  apply elem_of_cons in Hin as [[= <- <-]|Hin].
  - rewrite decide_True, filter_groups_notin by done. by rewrite app_nil_r.
  - rewrite decide_False.
    + by rewrite IH.
    + intros ->. apply Hnin. apply list_elem_of_fmap. by exists (u, cs).
Qed.

Lemma unique_groups (gs : list (Z * list Z)) (seen : list Z) :
  NoDup gs.*1 → (∀ u, u ∈ gs.*1 → u ∉ seen) →
  unique_from seen (gs ≫= group_block).*1
  = (filter (λ g, g.2 ≠ []) gs).*1.
Proof.
  revert seen. induction gs as [|[u cs] gs IH]; intros seen; [done|].
  rewrite fmap_cons, NoDup_cons. intros [Hnin Hnd] Hseen.
  rewrite bind_cons, fmap_app. unfold group_block at 1.
  rewrite <- list_fmap_compose. simpl.
  destruct (decide (cs ≠ [])) as [Hne|Hnil].
  - rewrite filter_cons_True by done.
    rewrite (unique_from_block seen u cs); [|apply Hseen; by left|done].
    rewrite fmap_cons. simpl. f_equal. apply IH; [done|].
    intros u' Hu'. rewrite not_elem_of_cons. split.
    + by intros ->.
    + apply Hseen. by right.
  - rewrite filter_cons_False by done.
    assert (cs = []) as -> by (by destruct cs; [|destruct Hnil]).
    simpl. apply IH; [done|]. intros u' Hu'. apply Hseen. by right.
Qed.

Lemma rul_pass_groups (df : list row) (gs : list (Z * list Z)) :
  key <$> df = gs ≫= group_block → NoDup gs.*1 →
  rul_pass df = gs ≫= group_rul.
Proof.
  intros Hkeys Hnd. rewrite rul_pass_bind. unfold unique.
  replace (unit_id <$> df) with (key <$> df).*1
    by (by rewrite <- list_fmap_compose).
  rewrite Hkeys, unique_groups by (done || intros; apply not_elem_of_nil).
  apply bind_fmap_filter.
  - intros [u cs] Hin Hne. simpl in *.
    rewrite rul_for_unit_keys, Hkeys. simpl.
    rewrite (filter_groups gs u cs) by done.
    unfold group_block, group_rul. simpl.
    rewrite <- (list_fmap_compose _ snd).
    replace (snd ∘ (λ c : Z, (u, c)) <$> cs) with cs
      by (symmetry; apply list_fmap_id).
    destruct (series_max cs); [|done].
    by rewrite <- list_fmap_compose.
  - intros [u cs] _ Hnil. unfold group_rul. simpl in *.
    by assert (cs = []) as -> by (by destruct cs; [|destruct Hnil]).
Qed.

Lemma group_lengths (g : Z * list Z) :
  length (group_block g) = length (group_rul g).
Proof.
  unfold group_block, group_rul. destruct g as [u [|c cs]]; [done|].
  cbn [series_max snd]. by rewrite !length_fmap.
Qed.

(** On a frame in which the rows of each unit are adjacent (the cycles
    themselves may be any integers, in any order), every row receives
    [RUL = (largest cycle among the rows of its unit) - (its own cycle)]:
    the value is non-negative, it is attained by a row of the same unit,
    and no row of the unit has a later cycle. *)
Theorem rul_pass_on_grouped_frame (df : list row) (gs : list (Z * list Z)) :
  key <$> df = gs ≫= group_block → NoDup gs.*1 →
  ∃ nasa_train_df,
    assign_RUL df (rul_pass df) = Ok nasa_train_df
    ∧ reading_row <$> nasa_train_df = df
    ∧ ∀ rd, rd ∈ nasa_train_df →
        0 ≤ RUL rd
        ∧ (∃ r', r' ∈ df ∧ unit_id r' = unit_id (reading_row rd)
                 ∧ RUL rd = time_cycle r' - time_cycle (reading_row rd))
        ∧ (∀ r', r' ∈ df → unit_id r' = unit_id (reading_row rd) →
                 time_cycle r' - time_cycle (reading_row rd) ≤ RUL rd).
Proof.
  intros Hkeys Hnd.
  destruct (rul_pass_fits_any_frame df) as [Hlen Hassign].
  exists (zip_with Build_reading df (rul_pass df)).
  split; [exact Hassign|]. split.
  { clear -Hlen. revert Hlen. generalize (rul_pass df).
    induction df as [|r df IH]; intros [|x l] Hlen; try done.
    simpl. f_equal. apply IH. simpl in Hlen. lia. }
  assert (∀ r, r ∈ df → ∃ cs, (unit_id r, cs) ∈ gs ∧ time_cycle r ∈ cs)
    as Hrow.
  { intros r Hr.
    assert (key r ∈ gs ≫= group_block) as Hk
      by (rewrite <- Hkeys; apply list_elem_of_fmap; by exists r).
    apply list_elem_of_bind in Hk as ([u cs] & Hin & Hg).
    unfold group_block in Hin. simpl in Hin.
    apply list_elem_of_fmap in Hin as (c & [= Hu Hc] & Hcs).
    exists cs. rewrite Hu, Hc. done. }
  intros rd Hrd.
  assert (labelled rd ∈ gs ≫= λ g, zip (group_block g) (group_rul g)) as Hlab.
  { rewrite <- zip_bind by apply group_lengths.
    rewrite <- Hkeys, <- (rul_pass_groups df gs Hkeys Hnd), <- labelled_zip.
    apply list_elem_of_fmap. by exists rd. }
  apply list_elem_of_bind in Hlab as ([u cs] & Hin & Hg).
  unfold group_block, group_rul in Hin. simpl in Hin.
  destruct (series_max cs) as [m|] eqn:Hmax;
    [|destruct cs; [by apply elem_of_nil in Hin|done]].
  rewrite zip_fmap_diag in Hin.
  apply list_elem_of_fmap in Hin as (c & [= Hu Hc Hr] & Hcs).
  destruct (series_max_spec cs m Hmax) as [Hm Hall].
  rewrite Hu, Hc, Hr. split_and!.
  - apply (proj1 (Forall_forall _ _) Hall) in Hcs. lia.
  - assert ((u, m) ∈ key <$> df) as Hkm.
    { rewrite Hkeys. apply list_elem_of_bind. exists (u, cs). split; [|done].
      unfold group_block. simpl. apply list_elem_of_fmap. by exists m. }
    apply list_elem_of_fmap in Hkm as (r' & [= Hu' Hm'] & Hr').
    exists r'. split_and!; [done|done|by rewrite <- Hm'].
  - intros r' Hr' Hsame. destruct (Hrow r' Hr') as (cs' & Hin' & Hc').
    rewrite Hsame in Hin'.
    pose proof (NoDup_fst_functional gs u cs' cs Hnd Hin' Hg) as ->.
    apply (proj1 (Forall_forall _ _) Hall) in Hc'. lia.
Qed.

Lemma rul_pass_on_grouped_frame_witness :
  key <$> bare_frame [(7, 3); (7, 9); (7, 5); (2, 4)]
  = [(7, [3; 9; 5]); (2, [4])] ≫= group_block
  ∧ NoDup [(7, [3; 9; 5]); (2, [4])].*1
  ∧ ∃ nasa_train_df,
      assign_RUL (bare_frame [(7, 3); (7, 9); (7, 5); (2, 4)])
        (rul_pass (bare_frame [(7, 3); (7, 9); (7, 5); (2, 4)]))
      = Ok nasa_train_df
      ∧ ∀ rd, rd ∈ nasa_train_df → 0 ≤ RUL rd.
Proof.
  assert (key <$> bare_frame [(7, 3); (7, 9); (7, 5); (2, 4)]
          = [(7, [3; 9; 5]); (2, [4])] ≫= group_block) as Hkeys
    by reflexivity.
  assert (NoDup [(7, [3; 9; 5]); (2, [4])].*1) as Hnd.
  { simpl. apply NoDup_cons.
    split; [by intros ?%list_elem_of_singleton|apply NoDup_singleton]. }
  split_and!; [exact Hkeys|exact Hnd|].
  destruct (rul_pass_on_grouped_frame _ _ Hkeys Hnd)
    as (nasa_train_df & Hassign & _ & Hrows).
  exists nasa_train_df. split; [exact Hassign|].
  intros rd Hrd. by destruct (Hrows rd Hrd) as [? _].
Defined.

(** When the rows of two units are interleaved, the values are still
    computed unit by unit but attached by position: here the second row,
    (unit 2, cycle 1) of a unit that reaches cycle 2, is labelled 0. *)
Example rul_pass_interleaved_frame :
  (λ rds, labelled <$> rds)
    (zip_with Build_reading
       (bare_frame [(1, 1); (2, 1); (2, 2); (1, 2)])
       (rul_pass (bare_frame [(1, 1); (2, 1); (2, 2); (1, 2)])))
  = [(1, 1, 1); (2, 1, 0); (2, 2, 1); (1, 2, 0)].
Proof. vm_compute. reflexivity. Qed.

(** ** More on the generated table *)

Lemma fmap_bind_comm {A B C} (f : B → C) (g : A → list B) (l : list A) :
  f <$> (l ≫= g) = l ≫= λ x, f <$> g x.
Proof.
  induction l as [|x l IH]; [done|].
  by rewrite !bind_cons, fmap_app, IH.
Qed.

Lemma keys_of_labelled (df : list reading) (ls : list (Z * Z)) :
  labelled <$> df = ls ≫= labelled_block →
  (λ rd, key (reading_row rd)) <$> df = ls ≫= cycle_block.
Proof.
  intros Hlab. apply (f_equal (fmap fst)) in Hlab.
  rewrite <- list_fmap_compose, fmap_bind_comm in Hlab.
  etrans; [exact Hlab|]. apply list_bind_ext; [|done].
  intros [u N]. unfold labelled_block, cycle_block.
  by rewrite <- list_fmap_compose.
Qed.

Lemma StronglySorted_seqZ (m : Z) (n : nat) :
  StronglySorted Z.lt (seqZ m (Z.of_nat n)).
Proof.
  revert m. induction n as [|n IH]; intros m; [constructor|].
  rewrite seqZ_cons by lia.
  replace (Z.pred (Z.of_nat (S n))) with (Z.of_nat n) by lia.
  constructor; [apply IH|].
  apply Forall_seqZ. lia.
Qed.

Lemma StronglySorted_blocks (ls : list (Z * Z)) :
  StronglySorted (λ a b : Z * Z, a.1 < b.1) ls →
  StronglySorted key_lt (ls ≫= cycle_block).
Proof.
  induction 1 as [|[u N] ls Hsorted IH Hall]; [constructor|].
  rewrite bind_cons. apply StronglySorted_app_2.
  - intros k1 k2 Hk1 Hk2. left.
    unfold cycle_block in Hk1. simpl in Hk1.
    apply list_elem_of_fmap in Hk1 as (c & -> & _). simpl.
    apply list_elem_of_bind in Hk2 as ([u' N'] & Hk2 & Hin).
    unfold cycle_block in Hk2. simpl in Hk2.
    apply list_elem_of_fmap in Hk2 as (c' & -> & _). simpl.
    by apply (proj1 (Forall_forall _ _) Hall (u', N')).
  - unfold cycle_block. simpl.
    apply (StronglySorted_fmap _ Z.lt).
    + intros c c' Hlt. right. by split.
    + destruct (decide (0 ≤ N)) as [HN|HN].
      * replace N with (Z.of_nat (Z.to_nat N)) by lia. apply StronglySorted_seqZ.
      * rewrite seqZ_nil by lia. constructor.
  - exact IH.
Qed.

Lemma key_lt_irrefl (k : Z * Z) : ¬ key_lt k k.
Proof. unfold key_lt. lia. Qed.

Lemma StronglySorted_NoDup {A} (R : relation A) (l : list A) :
  (∀ x, ¬ R x x) → StronglySorted R l → NoDup l.
Proof.
  intros Hirr. induction 1 as [|x l Hsorted IH Hall]; constructor; [|done].
  intros Hin. apply (Hirr x). by apply (proj1 (Forall_forall _ _) Hall).
Qed.

Lemma sum_bounds {A} (f : A → Z) (a b : Z) (l : list A) :
  Forall (λ x, a ≤ f x ≤ b) l →
  a * Z.of_nat (length l) ≤ foldr Z.add 0 (f <$> l) ≤ b * Z.of_nat (length l).
Proof.
  induction 1 as [|x l Hx Hall IH]; [simpl; lia|].
  rewrite fmap_cons. cbn [foldr length].
  rewrite Nat2Z.inj_succ, !Z.mul_succ_r. lia.
Qed.




Lemma length_filter_unit (df : list reading) (u : Z) :
  length (filter (λ rd, unit_id (reading_row rd) = u) df)
  = length (filter (λ k : Z * Z, k.1 = u) ((λ rd, key (reading_row rd)) <$> df)).
Proof.
  induction df as [|rd df IH]; [done|].
  rewrite fmap_cons. destruct (decide (unit_id (reading_row rd) = u)) as [Hu|Hu].
  - rewrite !filter_cons_True by done. simpl. by rewrite IH.
  - by rewrite !filter_cons_False by done.
Qed.

Section GeneratorMore.
Context `{NumpyRandom rng}.







(** The generator fails in one way only, with [ValueError], and exactly
    when there is at least one unit and the bounds leave no lifespan to
    draw ([max_cycles <= min_cycles]); with no unit at all it returns the
    empty table, whatever the bounds. *)
Theorem generator_outcome (p : gen_params) (ambient : rng) :
  match create_nasa_sample_data_with p ambient with
  | Ok (df, st') =>
      (unit_count p ≤ 0 ∨ min_cycles p < max_cycles p)
      ∧ (unit_count p ≤ 0 → df = [] ∧ st' = np_seed (seed p))
  | Raise e =>
      e = ValueError ∧ 1 ≤ unit_count p ∧ max_cycles p ≤ min_cycles p
  end.
Proof.
  destruct (decide (unit_count p ≤ 0)) as [Hnone|Hsome].
  - unfold create_nasa_sample_data_with.
    rewrite seqZ_nil by done. simpl. split; [by left|done].
  - destruct (decide (min_cycles p < max_cycles p)) as [Hlt|Hge].
    + destruct (create_total p ambient Hlt) as (ls & df & st' & -> & _).
      split; [by right|done].
    + unfold create_nasa_sample_data_with.
      rewrite seqZ_cons by lia.
      rewrite unit_loop_raise by done. simpl. split_and!; [done|lia|lia].
Qed.

(** The table has exactly [N_u] readings for each unit [u], hence as many
    rows as the lifespans add up to; with non-negative bounds that is
    between [unit_count * min_cycles] and [unit_count * (max_cycles - 1)]
    rows, for the shipped literals between 15000 and 34900. *)
Theorem table_size (p : gen_params) (ambient : rng) :
  min_cycles p < max_cycles p →
  ∃ ls df st',
    create_nasa_sample_data_with p ambient = Ok (df, st')
    ∧ unit_lifespans p = Ok ls
    ∧ (∀ u N, (u, N) ∈ ls →
         length (filter (λ rd, unit_id (reading_row rd) = u) df) = Z.to_nat N)
    ∧ length df = sum_list ((λ uN, Z.to_nat uN.2) <$> ls)
    ∧ (0 ≤ min_cycles p → 0 ≤ unit_count p →
       unit_count p * min_cycles p
       ≤ Z.of_nat (length df)
       ≤ unit_count p * (max_cycles p - 1)).
Proof.
  intros Hlt.
  destruct (create_total p ambient Hlt)
    as (ls & df & st' & Hcreate & Hls & Hfst & Hall & Hlab).
  assert (NoDup ls.*1) as Hnd by (rewrite Hfst; apply NoDup_seqZ).
  pose proof (keys_of_labelled df ls Hlab) as Hkeys.
  assert (length df = sum_list ((λ uN, Z.to_nat uN.2) <$> ls)) as Hsize.
  { rewrite <- (length_fmap labelled), Hlab, length_bind_sum.
    f_equal. apply list_fmap_ext. intros _ [u N] _.
    unfold labelled_block. by rewrite length_fmap, length_seqZ. }
  exists ls, df, st'. split_and!; [done|done| |done|].
  - intros u N Hin.
    rewrite length_filter_unit.
    rewrite Hkeys, (filter_blocks ls u N) by done.
    unfold cycle_block. by rewrite length_fmap, length_seqZ.
  - intros Hmin Hcount. rewrite Hsize.
    assert (Z.of_nat (sum_list ((λ uN, Z.to_nat uN.2) <$> ls))
            = foldr Z.add 0 (snd <$> ls)) as ->.
    { clear -Hall Hmin. induction Hall as [|[u N] ls HN Hall IH]; [done|].
      rewrite !fmap_cons. cbn [sum_list_with foldr id].
      rewrite Nat2Z.inj_add, IH. simpl in *. lia. }
    assert (Z.of_nat (length ls) = unit_count p) as <-.
    { rewrite <- (length_fmap fst), Hfst, length_seqZ. lia. }
    pose proof (sum_bounds snd (min_cycles p) (max_cycles p - 1) ls) as Hb.
    rewrite (Z.mul_comm _ (min_cycles p)), (Z.mul_comm _ (max_cycles p - 1)).
    apply Hb. eapply Forall_impl; [exact Hall|]. intros [u N]. simpl. lia.
Qed.

(** The rows come out in strictly increasing order of (unit, cycle): the
    table is sorted, and no (unit, cycle) pair occurs twice. *)
Theorem table_sorted_by_unit_and_cycle (p : gen_params) (ambient : rng) :
  min_cycles p < max_cycles p →
  ∃ df st',
    create_nasa_sample_data_with p ambient = Ok (df, st')
    ∧ StronglySorted key_lt ((λ rd, key (reading_row rd)) <$> df)
    ∧ NoDup ((λ rd, key (reading_row rd)) <$> df).
Proof.
  intros Hlt.
  destruct (create_total p ambient Hlt)
    as (ls & df & st' & Hcreate & Hls & Hfst & Hall & Hlab).
  pose proof (keys_of_labelled df ls Hlab) as Hkeys.
  assert (StronglySorted key_lt ((λ rd, key (reading_row rd)) <$> df)) as Hsorted.
  { rewrite Hkeys. apply StronglySorted_blocks.
    assert (StronglySorted Z.lt ls.*1) as Hunits.
    { rewrite Hfst. destruct (decide (0 ≤ unit_count p)).
      - replace (unit_count p) with (Z.of_nat (Z.to_nat (unit_count p))) by lia.
        apply StronglySorted_seqZ.
      - rewrite seqZ_nil by lia. constructor. }
    clear -Hunits. induction ls as [|a ls IH]; [constructor|].
    rewrite fmap_cons in Hunits.
    apply StronglySorted_inv in Hunits as [Hrest Hhead].
    constructor; [by apply IH|].
    apply Forall_forall. intros b Hb.
    apply (proj1 (Forall_forall _ _) Hhead). apply list_elem_of_fmap. by exists b. }
  exists df, st'. split_and!; [done|done|].
  eapply StronglySorted_NoDup; [apply key_lt_irrefl|done].
Qed.

End GeneratorMore.

Lemma table_size_witness :
  min_cycles shipped_params < max_cycles shipped_params
  ∧ ∃ df st',
      create_nasa_sample_data (rng:=Z) 0 = Ok (df, st')
      ∧ 15000 ≤ Z.of_nat (length df) ≤ 34900.
Proof.
  assert (min_cycles shipped_params < max_cycles shipped_params) as Hlt
    by (simpl; lia).
  split; [exact Hlt|].
  destruct (table_size shipped_params (0 : Z) Hlt)
    as (ls & df & st' & Hcreate & _ & _ & _ & Hbounds).
  exists df, st'. split; [exact Hcreate|].
  simpl in Hbounds. lia.
Defined.

Lemma table_sorted_by_unit_and_cycle_witness :
  min_cycles small_params < max_cycles small_params
  ∧ ∃ df st',
      create_nasa_sample_data_with (rng:=Z) small_params 0 = Ok (df, st')
      ∧ NoDup ((λ rd, key (reading_row rd)) <$> df).
Proof.
  assert (min_cycles small_params < max_cycles small_params) as Hlt
    by (simpl; lia).
  split; [exact Hlt|].
  destruct (table_sorted_by_unit_and_cycle small_params (0 : Z) Hlt)
    as (df & st' & Hcreate & _ & Hnd).
  exists df, st'. split; [exact Hcreate|exact Hnd].
Defined.


(** ** Loops that append, with a state *)

Lemma foldlM_snoc_Forall2 {B C S} (f : list C * S → B → result (list C * S))
    (R : B → C → Prop) :
  (∀ acc st x, ∃ c st', f (acc, st) x = Ok (acc ++ [c], st') ∧ R x c) →
  ∀ l acc st, ∃ out st',
    foldlM f (acc, st) l = Ok (acc ++ out, st') ∧ Forall2 R l out.
Proof.
  intros Hstep l. induction l as [|x l IH]; intros acc st.
  - exists [], st. split; [by rewrite app_nil_r|constructor].
  - destruct (Hstep acc st x) as (c & st1 & Hf & HR).
    destruct (IH (acc ++ [c]) st1) as (out & st' & Hfold & Hall).
    exists (c :: out), st'. split; [|by constructor].
    simpl. rewrite Hf. simpl. rewrite Hfold. by rewrite <- app_assoc.
Qed.

Lemma foldlM_app_Forall2 {B C S} (f : list C * S → B → result (list C * S))
    (R : B → list C → Prop) :
  (∀ acc st x, ∃ cs st', f (acc, st) x = Ok (acc ++ cs, st') ∧ R x cs) →
  ∀ l acc st, ∃ outs st',
    foldlM f (acc, st) l = Ok (acc ++ mjoin outs, st') ∧ Forall2 R l outs.
Proof.
  intros Hstep l. induction l as [|x l IH]; intros acc st.
  - exists [], st. split; [by rewrite app_nil_r|constructor].
  - destruct (Hstep acc st x) as (cs & st1 & Hf & HR).
    destruct (IH (acc ++ cs) st1) as (outs & st' & Hfold & Hall).
    exists (cs :: outs), st'. split; [|by constructor].
    simpl. rewrite Hf. simpl. rewrite Hfold. by rewrite <- app_assoc.
Qed.

Lemma foldl_snoc_Forall2 {B C S} (f : list C * S → B → list C * S)
    (R : B → C → Prop) :
  (∀ acc st x, ∃ c st', f (acc, st) x = (acc ++ [c], st') ∧ R x c) →
  ∀ l acc st, ∃ out st',
    foldl f (acc, st) l = (acc ++ out, st') ∧ Forall2 R l out.
Proof.
  intros Hstep l. induction l as [|x l IH]; intros acc st.
  - exists [], st. split; [by rewrite app_nil_r|constructor].
  - destruct (Hstep acc st x) as (c & st1 & Hf & HR).
    destruct (IH (acc ++ [c]) st1) as (out & st' & Hfold & Hall).
    exists (c :: out), st'. split; [|by constructor].
    simpl. rewrite Hf, Hfold. by rewrite <- app_assoc.
Qed.

Lemma foldl_app_Forall2 {B C S} (f : list C * S → B → list C * S)
    (R : B → list C → Prop) :
  (∀ acc st x, ∃ cs st', f (acc, st) x = (acc ++ cs, st') ∧ R x cs) →
  ∀ l acc st, ∃ outs st',
    foldl f (acc, st) l = (acc ++ mjoin outs, st') ∧ Forall2 R l outs.
Proof.
  intros Hstep l. induction l as [|x l IH]; intros acc st.
  - exists [], st. split; [by rewrite app_nil_r|constructor].
  - destruct (Hstep acc st x) as (cs & st1 & Hf & HR).
    destruct (IH (acc ++ cs) st1) as (outs & st' & Hfold & Hall).
    exists (cs :: outs), st'. split; [|by constructor].
    simpl. rewrite Hf, Hfold. by rewrite <- app_assoc.
Qed.

(** Membership in the output of a nested loop. *)
Lemma nested_Forall2_elem {A B C} (R : A → B → C → Prop)
    (l1 : list A) (l2 : list B) (outs : list (list C)) :
  Forall2 (λ a cs, Forall2 (R a) l2 cs) l1 outs →
  (∀ c, c ∈ mjoin outs → ∃ a b, a ∈ l1 ∧ b ∈ l2 ∧ R a b c)
  ∧ (∀ a b, a ∈ l1 → b ∈ l2 → ∃ c, c ∈ mjoin outs ∧ R a b c)
  ∧ length (mjoin outs) = (length l1 * length l2)%nat.
Proof.
  induction 1 as [|a cs l1 outs Hcs Hrest IH].
  - split_and!; [by intros c ?%elem_of_nil|by intros a b ?%elem_of_nil|done].
  - destruct IH as (IH1 & IH2 & IH3). split_and!.
    + intros c Hc. simpl in Hc. apply elem_of_app in Hc as [Hc|Hc].
      * apply list_elem_of_lookup in Hc as [i Hi].
        destruct (Forall2_lookup_r _ _ _ i c Hcs Hi) as (b & Hb & HR).
        exists a, b. split_and!; [by left| |done].
        apply list_elem_of_lookup. by exists i.
      * destruct (IH1 c Hc) as (a' & b & Ha' & Hb & HR).
        exists a', b. split_and!; [by right|done|done].
    + intros a' b Ha' Hb. apply elem_of_cons in Ha' as [->|Ha'].
      * apply list_elem_of_lookup in Hb as [i Hi].
        destruct (Forall2_lookup_l _ _ _ i b Hcs Hi) as (c & Hc & HR).
        exists c. split; [|done]. simpl. apply elem_of_app. left.
        apply list_elem_of_lookup. by exists i.
      * destruct (IH2 a' b Ha' Hb) as (c & Hc & HR).
        exists c. split; [|done]. simpl. apply elem_of_app. by right.
    + simpl. rewrite length_app, IH3.
      apply Forall2_length in Hcs. rewrite <- Hcs. lia.
Qed.

(** ** [INSERT OR IGNORE] *)

Section InsertOrIgnore.
Context {V : Type}.
Implicit Types (t : gmap string V) (rows : list (string * V)).

Lemma insert_or_ignore_many_keeps rows t k v :
  t !! k = Some v → insert_or_ignore_many rows t !! k = Some v.
Proof.
  unfold insert_or_ignore_many. revert t.
  induction rows as [|[k' v'] rows IH]; intros t Hk; [done|].
  simpl. apply IH. unfold insert_or_ignore. simpl.
  destruct (t !! k') eqn:Hk'; [done|].
  rewrite lookup_insert_ne; [done|]. intros ->. congruence.
Qed.

Lemma insert_or_ignore_many_present rows t k :
  k ∈ rows.*1 → is_Some (insert_or_ignore_many rows t !! k).
Proof.
  unfold insert_or_ignore_many. revert t.
  induction rows as [|[k' v'] rows IH]; intros t; [by intros ?%elem_of_nil|].
  rewrite fmap_cons, elem_of_cons. simpl. intros [->|Hk]; [|by apply IH].
  unfold insert_or_ignore at 2. simpl.
  destruct (t !! k') as [v|] eqn:Hk'.
  - exists v. by apply (insert_or_ignore_many_keeps rows t k' v).
  - exists v'. apply (insert_or_ignore_many_keeps rows).
    apply lookup_insert_eq.
Qed.

Lemma insert_or_ignore_many_origin rows t k v :
  insert_or_ignore_many rows t !! k = Some v →
  t !! k = Some v ∨ (t !! k = None ∧ (k, v) ∈ rows).
Proof.
  unfold insert_or_ignore_many. revert t.
  induction rows as [|[k' v'] rows IH]; intros t; simpl; [by left|].
  intros Hk. apply IH in Hk. unfold insert_or_ignore in Hk. simpl in Hk.
  destruct (t !! k') eqn:Hk'.
  - destruct Hk as [Hk|[Hnone Hin]]; [by left|right]. split; [done|by right].
  - destruct (decide (k = k')) as [->|Hne].
    + rewrite lookup_insert_eq in Hk. destruct Hk as [[= ->]|[[=] _]].
      right. split; [done|by left].
    + rewrite lookup_insert_ne in Hk by done.
      destruct Hk as [Hk|[Hnone Hin]]; [by left|right]. split; [done|by right].
Qed.

Lemma insert_or_ignore_many_id rows t :
  (∀ k, k ∈ rows.*1 → is_Some (t !! k)) →
  insert_or_ignore_many rows t = t.
Proof.
  unfold insert_or_ignore_many.
  induction rows as [|[k v] rows IH]; intros Hall; [done|].
  simpl. unfold insert_or_ignore at 2. simpl.
  destruct (Hall k) as [v' ->]; [by left|].
  apply IH. intros k' Hk'. apply Hall. by right.
Qed.

(** Inserting the same keys a second time changes nothing, whatever the
    values offered. *)
Lemma insert_or_ignore_many_again rows rows' t :
  rows'.*1 = rows.*1 →
  insert_or_ignore_many rows' (insert_or_ignore_many rows t)
  = insert_or_ignore_many rows t.
Proof.
  intros Hkeys. apply insert_or_ignore_many_id.
  intros k Hk. rewrite Hkeys in Hk. by apply insert_or_ignore_many_present.
Qed.
End InsertOrIgnore.

(** ** [add_supply_chain_data]: what the loops build *)

Section SupplyChainFacts.
Context `{NumpyRandom rng}.
Variables V Vh Vu : Q → Prop.
Hypothesis HV : ∀ st : rng, V (np_uniform st 0.95%Q 1.05%Q).1.
Hypothesis HVh : ∀ st : rng, Vh (np_uniform st 40%Q 98%Q).1.
Hypothesis HVu : ∀ st : rng, Vu (np_uniform st 10%Q 200%Q).1.

Lemma supplier_part_step_spec (sup : string * supplier_row)
    (acc : list supplier_part_row) (st : rng) (part : string * part_row) :
  ∃ r st',
    supplier_part_step sup.1 (s_avg_delivery_days sup.2) (acc, st) part
    = Ok (acc ++ [r], st')
    ∧ offer_row_ok V sup part r.
Proof.
  unfold supplier_part_step.
  pose proof (HV st) as Hv.
  destruct (np_uniform st 0.95%Q 1.05%Q) as [v st1]. simpl in Hv.
  unfold randint. rewrite decide_True by lia. simpl.
  pose proof (np_randint_range st1 (-1) 2 ltac:(lia)) as Hj.
  destruct (np_randint_draw st1 (-1) 2) as [jitter st2]. simpl in Hj.
  eexists _, _. split; [done|].
  unfold offer_row_ok. simpl. split_and!; try done; try lia.
  by exists v.
Qed.

Lemma supplier_parts_loop_spec (sups : list (string * supplier_row))
    (parts : list (string * part_row)) (st : rng) :
  ∃ outs st',
    supplier_parts_loop sups parts st = Ok (mjoin outs, st')
    ∧ Forall2 (λ sup rs, Forall2 (offer_row_ok V sup) parts rs) sups outs.
Proof.
  unfold supplier_parts_loop.
  apply (foldlM_app_Forall2
           (λ acc sup, foldlM (supplier_part_step sup.1 (s_avg_delivery_days sup.2))
                              acc parts)
           (λ sup rs, Forall2 (offer_row_ok V sup) parts rs)).
  intros acc st0 sup.
  apply (foldlM_snoc_Forall2
           (supplier_part_step sup.1 (s_avg_delivery_days sup.2))
           (offer_row_ok V sup)).
  intros acc' st' part. apply supplier_part_step_spec.
Qed.

Lemma component_step_spec (ac : string * aircraft_row)
    (acc : list (string * component_row)) (st : rng) (engine_num : Z) :
  ∃ kc st',
    component_step ac.1 (total_flight_hours ac.2) (acc, st) engine_num
    = (acc ++ [kc], st')
    ∧ component_ok Vh Vu ac engine_num kc.
Proof.
  unfold component_step.
  pose proof (HVh st) as Hh.
  destruct (np_uniform st 40%Q 98%Q) as [h st1]. simpl in Hh.
  pose proof (HVu st1) as Hu.
  destruct (np_uniform st1 10%Q 200%Q) as [u st2]. simpl in Hu.
  eexists _, _. split; [done|].
  unfold component_ok. simpl. split_and!; try done.
  - by exists h.
  - by exists u.
Qed.

Lemma components_loop_spec (fleet : list (string * aircraft_row)) (st : rng) :
  ∃ outs st',
    components_loop fleet st = (mjoin outs, st')
    ∧ Forall2 (λ ac kcs, Forall2 (component_ok Vh Vu ac) (seqZ 1 4) kcs)
        fleet outs.
Proof.
  unfold components_loop.
  apply (foldl_app_Forall2
           (λ acc ac, foldl (component_step ac.1 (total_flight_hours ac.2))
                            acc (seqZ 1 4))
           (λ ac kcs, Forall2 (component_ok Vh Vu ac) (seqZ 1 4) kcs)).
  intros acc st0 ac.
  apply (foldl_snoc_Forall2
           (component_step ac.1 (total_flight_hours ac.2))
           (component_ok Vh Vu ac)).
  intros acc' st' e. apply component_step_spec.
Qed.

Lemma components_keys (fleet : list (string * aircraft_row))
    (outs : list (list (string * component_row))) :
  Forall2 (λ ac kcs, Forall2 (component_ok Vh Vu ac) (seqZ 1 4) kcs) fleet outs →
  (mjoin outs).*1 = fleet_component_ids fleet.
Proof.
  unfold fleet_component_ids.
  induction 1 as [|ac kcs fleet outs Hkcs Hrest IH]; [done|].
  change (mjoin (kcs :: outs)) with (kcs ++ mjoin outs).
  rewrite bind_cons, fmap_app, IH. f_equal.
  clear -Hkcs. generalize dependent (seqZ 1 4). intros es Hkcs.
  induction Hkcs as [|e kc es kcs Hkc Hrest IH]; [done|].
  rewrite !fmap_cons, IH. f_equal. apply Hkc.
Qed.

(** The method never fails, and its result is the store with the new
    rows in place. *)
Lemma add_supply_chain_data_spec (s : store) (st : rng) :
  ∃ outs couts st',
    Forall2 (λ sup rs, Forall2 (offer_row_ok V sup) shipped_parts rs)
      shipped_suppliers outs
    ∧ Forall2 (λ ac kcs, Forall2 (component_ok Vh Vu ac) (seqZ 1 4) kcs)
        shipped_aircraft couts
    ∧ add_supply_chain_data s st
      = Ok ({| core :=
                 {| suppliers :=
                      insert_or_ignore_many shipped_suppliers (suppliers (core s));
                    supplier_parts := supplier_parts (core s) ++ mjoin outs;
                    maintenance_history := maintenance_history (core s);
                    cost_analytics := cost_analytics (core s) |};
               nasa_sensor_data := nasa_sensor_data s;
               parts_catalog :=
                 insert_or_ignore_many shipped_parts (parts_catalog s);
               aircraft := insert_or_ignore_many shipped_aircraft (aircraft s);
               engine_components :=
                 insert_or_ignore_many (mjoin couts) (engine_components s) |},
            st').
Proof.
  destruct (supplier_parts_loop_spec shipped_suppliers shipped_parts st)
    as (outs & st1 & Hloop & Houts).
  destruct (components_loop_spec shipped_aircraft st1)
    as (couts & st2 & Hcloop & Hcouts).
  exists outs, couts, st2. split_and!; [done|done|].
  unfold add_supply_chain_data. rewrite Hloop. cbn [mbind result_bind].
  by rewrite Hcloop.
Qed.
End SupplyChainFacts.

Lemma shipped_parts_NoDup : NoDup shipped_parts.*1.
Proof. compute_done. Qed.

Lemma shipped_suppliers_NoDup : NoDup shipped_suppliers.*1.
Proof. compute_done. Qed.

Lemma shipped_parts_prices :
  Forall (λ kp, (0 <= standard_price kp.2)%Q) shipped_parts.
Proof. repeat constructor; simpl; lra. Qed.

Lemma py_int_between (u : Q) (a b : Z) :
  0 ≤ a → (inject_Z a <= u <= inject_Z b)%Q → a ≤ py_int u ≤ b.
Proof.
  intros Ha [Hlo Hhi]. unfold py_int, Qle in *. simpl in *.
  rewrite Z.quot_div_nonneg by lia. split.
  - apply Z.div_le_lower_bound; lia.
  - apply Z.div_le_upper_bound; lia.
Qed.

Lemma lcg_uniform_range (st : Z) (low high : Q) :
  (low <= high)%Q →
  (low <= (np_uniform (rng:=Z) st low high).1 <= high)%Q.
Proof.
  intros Hle. simpl.
  assert (0 <= st mod 1000 # 1000 <= 1)%Q as [H0 H1].
  { pose proof (Z.mod_pos_bound st 1000 ltac:(lia)).
    unfold Qle. simpl. lia. }
  set (t := (st mod 1000 # 1000)%Q) in *. nra.
Qed.

#[export] Instance lcg_uniform_in_range : UniformInRange (rng:=Z) :=
  lcg_uniform_range.

(** ** [add_supply_chain_data]: the properties *)

Section SupplyChainProperties.
Context `{NumpyRandom rng}.


(** Running the method a second time leaves the keyed tables
    ([suppliers], [parts_catalog], [aircraft], [engine_components]) as the
    first run left them, but adds another 40 rows to [supplier_parts],
    which has no unique key. *)
Theorem supply_chain_rerun_duplicates_offers (s : store) (st : rng) :
  ∃ s1 st1 s2 st2,
    add_supply_chain_data s st = Ok (s1, st1)
    ∧ add_supply_chain_data s1 st1 = Ok (s2, st2)
    ∧ suppliers (core s2) = suppliers (core s1)
    ∧ parts_catalog s2 = parts_catalog s1
    ∧ aircraft s2 = aircraft s1
    ∧ engine_components s2 = engine_components s1
    ∧ length (supplier_parts (core s2))
      = (length (supplier_parts (core s)) + 80)%nat.
Proof.
  destruct (add_supply_chain_data_spec (λ _, True) (λ _, True) (λ _, True)
              ltac:(done) ltac:(done) ltac:(done) s st)
    as (outs & couts & st1 & Houts & Hcouts & Hrun).
  set (s1 := {| core := _ |}) in Hrun.
  destruct (add_supply_chain_data_spec (λ _, True) (λ _, True) (λ _, True)
              ltac:(done) ltac:(done) ltac:(done) s1 st1)
    as (outs' & couts' & st2 & Houts' & Hcouts' & Hrun').
  destruct (nested_Forall2_elem _ _ _ _ Houts) as (_ & _ & Hlen).
  destruct (nested_Forall2_elem _ _ _ _ Houts') as (_ & _ & Hlen').
  eexists s1, st1, _, st2. split; [exact Hrun|]. split; [exact Hrun'|].
  subst s1.
  cbn [core suppliers supplier_parts parts_catalog aircraft engine_components].
  split_and!.
  - by apply insert_or_ignore_many_again.
  - by apply insert_or_ignore_many_again.
  - by apply insert_or_ignore_many_again.
  - apply insert_or_ignore_many_again.
    by rewrite (components_keys _ _ _ _ Hcouts), (components_keys _ _ _ _ Hcouts').
  - rewrite !length_app, Hlen, Hlen'.
    assert (length shipped_suppliers = 5%nat) as -> by done.
    assert (length shipped_parts = 8%nat) as -> by done. lia.
Qed.

(** Every synthesized maintenance record, whatever the loop bounds,
    refers to an aircraft and to an engine component that
    [add_supply_chain_data] has put in the database. *)
Theorem maintenance_records_reference_the_fleet (s : store) (st : rng)
    (predictive_n reactive_n today : Z) :
  ∃ s' st',
    add_supply_chain_data s st = Ok (s', st')
    ∧ ∀ e, e ∈ synthesize_records predictive_n reactive_n today →
        is_Some (aircraft s' !! aircraft_id e)
        ∧ is_Some (engine_components s' !! component_id e).
Proof.
  destruct (add_supply_chain_data_spec (λ _, True) (λ _, True) (λ _, True)
              ltac:(done) ltac:(done) ltac:(done) s st)
    as (outs & couts & st' & _ & Hcouts & Hrun).
  eexists _, st'. split; [exact Hrun|]. cbn [aircraft engine_components].
  pose proof (components_keys _ _ _ _ Hcouts) as Hkeys.
  assert (∀ e, e ∈ synthesize_records predictive_n reactive_n today →
               aircraft_id e ∈ shipped_aircraft.*1
               ∧ component_id e ∈ fleet_component_ids shipped_aircraft) as Hids.
  { intros e He. unfold synthesize_records in He.
    apply elem_of_app in He as [He|He];
      apply list_elem_of_fmap in He as (i & -> & _).
    - pose proof (Z.mod_pos_bound i 3 ltac:(lia)) as H3.
      pose proof (Z.mod_pos_bound i 4 ltac:(lia)) as H4.
      unfold predictive_record. simpl.
      assert (i mod 3 = 0 ∨ i mod 3 = 1 ∨ i mod 3 = 2) as [-> | [-> | ->]] by lia;
      assert (i mod 4 = 0 ∨ i mod 4 = 1 ∨ i mod 4 = 2 ∨ i mod 4 = 3)
        as [-> | [-> | [-> | ->]]] by lia;
      split; compute_done.
    - pose proof (Z.mod_pos_bound i 4 ltac:(lia)) as H4.
      unfold reactive_record. simpl.
      assert (i mod 4 = 0 ∨ i mod 4 = 1 ∨ i mod 4 = 2 ∨ i mod 4 = 3)
        as [-> | [-> | [-> | ->]]] by lia;
      split; compute_done. }
  intros e He. destruct (Hids e He) as [Ha Hc]. split.
  - by apply insert_or_ignore_many_present.
  - apply insert_or_ignore_many_present. by rewrite Hkeys.
Qed.
End SupplyChainProperties.

Section SupplyChainRanges.
Context `{NumpyRandom rng} {Hrange : @UniformInRange rng _}.

Let price_factor (v : Q) : Prop := (0.95 <= v <= 1.05)%Q.
Let health_value (h : Q) : Prop := (40 <= h <= 98)%Q.
Let rul_value (u : Q) : Prop := (10 <= u <= 200)%Q.

Lemma price_factor_drawn (st : rng) : price_factor (np_uniform st 0.95%Q 1.05%Q).1.
Proof. apply Hrange. lra. Qed.
Lemma health_value_drawn (st : rng) : health_value (np_uniform st 40%Q 98%Q).1.
Proof. apply Hrange. lra. Qed.
Lemma rul_value_drawn (st : rng) : rul_value (np_uniform st 10%Q 200%Q).1.
Proof. apply Hrange. lra. Qed.

(** On a database whose supplier tables are still empty, the supplier
    returned for a catalogue part is one of the five shipped suppliers,
    with its own rating and reliability, a delivery time within one day
    of that supplier's average and a price within 5% of the part's
    standard price. *)
Theorem fresh_supply_chain_best_offer (s : store) (st : rng)
    (pn : string) (part : part_row) :
  suppliers (core s) = ∅ → supplier_parts (core s) = [] →
  (pn, part) ∈ shipped_parts →
  ∃ s' st' b sid sup,
    add_supply_chain_data s st = Ok (s', st')
    ∧ find_best_supplier (core s') pn = Some b
    ∧ (sid, sup) ∈ shipped_suppliers
    ∧ supplier b = s_name sup
    ∧ location b = s_location sup
    ∧ rating b = s_rating sup
    ∧ reliability b = s_reliability_score sup
    ∧ s_avg_delivery_days sup - 1 ≤ delivery_days b ≤ s_avg_delivery_days sup + 1
    ∧ (0.95 * standard_price part <= price b <= 1.05 * standard_price part)%Q.
Proof.
  intros Hsup Hrows Hpart.
  destruct (add_supply_chain_data_spec price_factor (λ _, True) (λ _, True)
              price_factor_drawn ltac:(done) ltac:(done) s st)
    as (outs & couts & st' & Houts & _ & Hrun).
  destruct (nested_Forall2_elem _ _ _ _ Houts) as (Horigin & Hcover & _).
  rewrite Hsup, Hrows, app_nil_l in Hrun.
  set (db' := {| suppliers := insert_or_ignore_many shipped_suppliers ∅;
                 supplier_parts := mjoin outs;
                 maintenance_history := maintenance_history (core s);
                 cost_analytics := cost_analytics (core s) |}) in *.
  destruct (find_best_supplier_least db' pn) as ([sp s0] & Hin & Hbest & _).
  { destruct (Hcover ("SUP-001", {| s_name := "GE Aviation Parts";
                                     s_location := "Cincinnati, OH";
                                     s_rating := 4.8; s_avg_delivery_days := 5;
                                     s_reliability_score := 0.98 |}) (pn, part))
      as (r & Hr & Hid & Hnum & _); [by left|done|].
    intros Hnil.
    assert ((r, {| s_name := "GE Aviation Parts";
                   s_location := "Cincinnati, OH";
                   s_rating := 4.8; s_avg_delivery_days := 5;
                   s_reliability_score := 0.98 |}) ∈ @nil offer) as Hmem;
      [|by apply elem_of_nil in Hmem].
    rewrite <- Hnil. apply elem_of_offers_for.
    split_and!; [done|done|]. simpl. rewrite Hid. done. }
  apply elem_of_offers_for in Hin as (Hsp & Hnum & Hlookup).
  unfold db' in Hsp, Hlookup.
  cbn [fst snd suppliers supplier_parts] in Hsp, Hnum, Hlookup.
  destruct (Horigin sp Hsp) as ([sid sup] & [pn' part'] & Hsid & Hpn' & Hok).
  destruct Hok as (Hid & Hnum' & _ & Hdays & v & Hv & Hprice).
  cbn [fst snd] in Hid, Hnum', Hdays, Hprice.
  assert (part' = part) as ->.
  { rewrite Hnum in Hnum'. subst pn'.
    exact (NoDup_fst_functional _ _ _ _ shipped_parts_NoDup Hpn' Hpart). }
  assert (s0 = sup) as ->.
  { rewrite Hid in Hlookup.
    apply insert_or_ignore_many_origin in Hlookup as [Hold|[_ Hnew]];
      [by rewrite lookup_empty in Hold|].
    exact (NoDup_fst_functional _ _ _ _ shipped_suppliers_NoDup Hnew Hsid). }
  exists {| core := db'; nasa_sensor_data := nasa_sensor_data s;
            parts_catalog := insert_or_ignore_many shipped_parts (parts_catalog s);
            aircraft := insert_or_ignore_many shipped_aircraft (aircraft s);
            engine_components :=
              insert_or_ignore_many (mjoin couts) (engine_components s) |},
    st', (summary (sp, sup)), sid, sup.
  split_and!; try done.
  - simpl. lia.
  - simpl. lia.
  - simpl. rewrite Hprice.
    pose proof (proj1 (Forall_forall _ _) shipped_parts_prices _ Hpart) as Hnonneg.
    simpl in Hnonneg. unfold price_factor in Hv. nra.
  - simpl. rewrite Hprice.
    pose proof (proj1 (Forall_forall _ _) shipped_parts_prices _ Hpart) as Hnonneg.
    simpl in Hnonneg. unfold price_factor in Hv. nra.
Qed.

(** Every engine component found after the call either was there before
    or is one the call created: then its health is between 40 and 98,
    its failure risk is 100 minus the health (so between 2 and 60), its
    predicted RUL is between 10 and 200, it belongs to one of the five
    shipped aircraft as engine 1 to 4, and its id is built from both.
    All twenty ids are present afterwards. *)
Theorem components_are_consistent (s : store) (st : rng) :
  ∃ s' st',
    add_supply_chain_data s st = Ok (s', st')
    ∧ (∀ id, id ∈ fleet_component_ids shipped_aircraft →
         is_Some (engine_components s' !! id))
    ∧ ∀ id c, engine_components s' !! id = Some c →
        engine_components s !! id = Some c
        ∨ ((health_score c + failure_risk c == 100)%Q
           ∧ (40 <= health_score c <= 98)%Q
           ∧ (2 <= failure_risk c <= 60)%Q
           ∧ 10 ≤ predicted_rul c ≤ 200
           ∧ ec_part_number c = "HPT-8472-A"
           ∧ 1 ≤ engine_number c ≤ 4
           ∧ id = component_id_of (ec_aircraft_id c) (engine_number c)
           ∧ ∃ ac, (ec_aircraft_id c, ac) ∈ shipped_aircraft
                   ∧ operating_hours c = total_flight_hours ac).
Proof.
  destruct (add_supply_chain_data_spec (λ _, True) health_value rul_value
              ltac:(done) health_value_drawn rul_value_drawn s st)
    as (outs & couts & st' & _ & Hcouts & Hrun).
  destruct (nested_Forall2_elem _ _ _ _ Hcouts) as (Horigin & _ & _).
  eexists _, st'. split; [exact Hrun|]. cbn [engine_components]. split.
  - intros id Hid. apply insert_or_ignore_many_present.
    by rewrite (components_keys _ _ _ _ Hcouts).
  - intros id c Hlookup.
    apply insert_or_ignore_many_origin in Hlookup as [Hold|[_ Hnew]];
      [by left|right].
    destruct (Horigin _ Hnew) as ([aid ac] & e & Hac & He & Hok).
    destruct Hok as (Hid & Haid & Heng & Hpart & Hhours
                     & (h & Hh & Hhealth & Hrisk) & (u & Hu & Hrul)).
    simpl in *. apply elem_of_seqZ in He.
    unfold health_value in Hh. unfold rul_value in Hu.
    rewrite Hhealth, Hrisk, Hrul, Haid, Heng.
    split_and!; try done; try lra; try lia.
    + apply (py_int_between u 10 200); [lia|done].
    + apply (py_int_between u 10 200); [lia|done].
    + exists ac. by split.
Qed.
End SupplyChainRanges.

Lemma fresh_supply_chain_best_offer_witness :
  suppliers (core empty_store) = ∅
  ∧ supplier_parts (core empty_store) = []
  ∧ ∃ part, ("HPT-8472-A", part) ∈ shipped_parts
            ∧ ∃ s' st' b,
                add_supply_chain_data (rng:=Z) empty_store 5 = Ok (s', st')
                ∧ find_best_supplier (core s') "HPT-8472-A" = Some b
                ∧ (0.95 * standard_price part <= price b
                   <= 1.05 * standard_price part)%Q.
Proof.
  assert (suppliers (core empty_store) = ∅) as Hsup by reflexivity.
  assert (supplier_parts (core empty_store) = []) as Hrows by reflexivity.
  split; [exact Hsup|]. split; [exact Hrows|].
  exists {| part_name := "High-Pressure Turbine Blade Assembly";
            part_category := "Engine Core"; standard_price := 4200;
            rush_price := 12600; lead_time_days := 5; stock_quantity := 15 |}.
  assert (("HPT-8472-A",
           {| part_name := "High-Pressure Turbine Blade Assembly";
              part_category := "Engine Core"; standard_price := 4200;
              rush_price := 12600; lead_time_days := 5; stock_quantity := 15 |})
          ∈ shipped_parts) as Hpart by (by left).
  split; [exact Hpart|].
  destruct (fresh_supply_chain_best_offer (rng:=Z) empty_store 5 _ _
              Hsup Hrows Hpart)
    as (s' & st' & b & sid & sup & Hrun & Hbest & _ & _ & _ & _ & _ & _ & Hprice).
  exists s', st', b. split; [exact Hrun|]. split; [exact Hbest|exact Hprice].
Defined.

Lemma components_are_consistent_witness :
  ∃ s' st',
    add_supply_chain_data (rng:=Z) empty_store 5 = Ok (s', st')
    ∧ ∀ id c, engine_components s' !! id = Some c →
        (health_score c + failure_risk c == 100)%Q.
Proof.
  destruct (components_are_consistent (rng:=Z) empty_store 5)
    as (s' & st' & Hrun & _ & Hcomp).
  exists s', st'. split; [exact Hrun|].
  intros id c Hc. destruct (Hcomp id c Hc) as [Hold|[Hsum _]]; [|exact Hsum].
  simpl in Hold. by rewrite lookup_empty in Hold.
Defined.

(** ** [load_nasa_data] *)


(** ** [generate_report] *)

Lemma sql_min_spec (xs : list Z) (m : Z) :
  sql_min xs = Some m → m ∈ xs ∧ Forall (λ x, m ≤ x) xs.
Proof.
  destruct xs as [|x xs]; [done|]. simpl. intros [= <-].
  revert x. induction xs as [|y xs IH]; intros x; simpl.
  - split; [by left|]. by constructor.
  - destruct (IH (Z.min x y)) as [Hin Hall]. split.
    + apply elem_of_cons in Hin as [Heq|Hin]; [|by do 2 right].
      rewrite Heq. destruct (Z.min_spec x y) as [[_ ->]|[_ ->]];
        [by left|right; by left].
    + apply Forall_cons in Hall as [Hc Hall].
      repeat constructor; [lia|lia|done].
Qed.

Lemma sql_max_spec (xs : list Z) (m : Z) :
  sql_max xs = Some m → m ∈ xs ∧ Forall (λ x, x ≤ m) xs.
Proof. apply series_max_spec. Qed.

(** The report is produced exactly when there is at least one sensor
    reading, at least one aircraft, and the cost-reduction percentage can
    be computed; an empty [nasa_sensor_data] or [aircraft] table makes it
    fail with [TypeError] (a NULL aggregate meets a numeric format).  When
    it is produced, the RUL range it prints is in order and both ends are
    RUL values stored in the table. *)
Theorem generate_report_outcome (s : store) :
  match generate_report s with
  | Ok rep =>
      nasa_sensor_data s ≠ []
      ∧ aircraft s ≠ ∅
      ∧ report_savings_pct (core s) = Ok (rep_cost_reduction rep)
      ∧ rep_readings rep = Z.of_nat (length (nasa_sensor_data s))
      ∧ rep_rul_min rep ≤ rep_rul_max rep
      ∧ rep_rul_min rep ∈ ns_rul <$> nasa_sensor_data s
      ∧ rep_rul_max rep ∈ ns_rul <$> nasa_sensor_data s
      ∧ rep_best_supplier rep = find_best_supplier (core s) "HPT-8472-A"
  | Raise e =>
      (nasa_sensor_data s = [] ∧ e = TypeError)
      ∨ (aircraft s = ∅ ∧ e = TypeError)
      ∨ report_savings_pct (core s) = Raise e
  end.
Proof.
  unfold generate_report.
  destruct (nasa_sensor_data s) as [|r rows] eqn:Hrows; [by left|].
  rewrite fmap_cons.
  destruct (sql_min (ns_rul r :: (ns_rul <$> rows))) as [mn|] eqn:Hmin; [|done].
  destruct (sql_max (ns_rul r :: (ns_rul <$> rows))) as [mx|] eqn:Hmax; [|done].
  cbn [py_format mbind result_bind sql_avg].
  destruct (map_to_list (aircraft s)) as [|kv kvs] eqn:Hfleet.
  { right. left. split; [|done]. by apply map_to_list_empty_iff. }
  rewrite fmap_cons. cbn [sql_sum_int py_format mbind result_bind].
  destruct (report_savings_pct (core s)) as [pct|e] eqn:Hpct;
    [|by right; right].
  cbn [mbind result_bind].
  cbn [rep_cost_reduction rep_readings rep_rul_min rep_rul_max rep_best_supplier].
  destruct (sql_min_spec _ _ Hmin) as [Hmn_in Hmn].
  destruct (sql_max_spec _ _ Hmax) as [Hmx_in Hmx].
  split_and!; try done.
  - intros Hempty. rewrite Hempty, map_to_list_empty in Hfleet. done.
  - simpl. by rewrite length_fmap.
  - apply (proj1 (Forall_forall _ _) Hmn) in Hmx_in. done.
Qed.

(** ** [setup], and the report after it *)

Lemma foldl_add_foldr (a : Z) (xs : list Z) :
  foldl Z.add a xs = a + foldr Z.add 0 xs.
Proof.
  revert a. induction xs as [|x xs IH]; intros a; simpl; [lia|].
  rewrite IH. lia.
Qed.

Lemma sql_avg_between (a b : Z) (xs : list Z) (avg : Q) :
  Forall (λ x, a ≤ x ≤ b) xs → sql_avg xs = Some avg →
  (inject_Z a <= avg <= inject_Z b)%Q.
Proof.
  intros Hall Havg. destruct xs as [|x xs]; [done|].
  unfold sql_avg in Havg. injection Havg as <-.
  pose proof (sum_bounds id a b (x :: xs) Hall) as Hb.
  rewrite list_fmap_id in Hb.
  rewrite foldl_add_foldr, Z.add_0_l.
  assert (0 < inject_Z (Z.of_nat (length (x :: xs))))%Q as Hpos
    by (rewrite <- (Zlt_Qlt 0); simpl; lia).
  split.
  - apply Qle_shift_div_l; [done|]. rewrite <- inject_Z_mult, <- Zle_Qle.
    simpl in Hb |- *. lia.
  - apply Qle_shift_div_r; [done|]. rewrite <- inject_Z_mult, <- Zle_Qle.
    simpl in Hb |- *. lia.
Qed.

Lemma sum_list_lower {A} (f : A → nat) (a : nat) (l : list A) :
  Forall (λ x, (a ≤ f x)%nat) l → (a * length l ≤ sum_list (f <$> l))%nat.
Proof.
  induction 1 as [|x l Hx Hall IH]; [simpl; lia|].
  rewrite fmap_cons. cbn [sum_list_with foldr id length]. 
  change (sum_list_with id (f <$> l)) with (sum_list (f <$> l)). lia.
Qed.

(** The report on a store with at least one reading, at least one
    aircraft and a printable analytics row. *)
Lemma generate_report_ok (s : store) (r : nasa_sensor_row)
    (rows : list nasa_sensor_row) (h : Z) (pct : option Q) :
  nasa_sensor_data s = r :: rows →
  sql_sum_int ((λ kv, total_flight_hours kv.2) <$> map_to_list (aircraft s))
  = Some h →
  report_savings_pct (core s) = Ok pct →
  ∃ mn mx avg,
    sql_min (ns_rul <$> nasa_sensor_data s) = Some mn
    ∧ sql_max (ns_rul <$> nasa_sensor_data s) = Some mx
    ∧ sql_avg (ns_rul <$> nasa_sensor_data s) = Some avg
    ∧ generate_report s
      = Ok {| rep_readings := Z.of_nat (length (nasa_sensor_data s));
              rep_rul_min := mn;
              rep_rul_max := mx;
              rep_rul_avg := avg;
              rep_aircraft := Z.of_nat (size (aircraft s));
              rep_flight_hours := h;
              rep_suppliers := Z.of_nat (size (suppliers (core s)));
              rep_parts := Z.of_nat (size (parts_catalog s));
              rep_cost_reduction := pct;
              rep_best_supplier := find_best_supplier (core s) "HPT-8472-A" |}.
Proof.
  intros Hrows Hh Hpct. unfold generate_report.
  rewrite Hh, Hpct, length_fmap, Hrows, fmap_cons.
  eexists _, _, _. split_and!; reflexivity.
Qed.

(** A catalogue part has an offer, hence a best supplier, once the
    supplier-part loop has run. *)
Lemma catalogue_part_has_best_supplier (V : Q → Prop)
    (sup : gmap string supplier_row) (sps : list supplier_part_row)
    (outs : list (list supplier_part_row))
    (mh : list maintenance_record) (ca : gmap string cost_analytics_row)
    (pn : string) :
  Forall2 (λ sup rs, Forall2 (offer_row_ok V sup) shipped_parts rs)
    shipped_suppliers outs →
  pn ∈ shipped_parts.*1 →
  is_Some (find_best_supplier
             {| suppliers := insert_or_ignore_many shipped_suppliers sup;
                supplier_parts := sps ++ mjoin outs;
                maintenance_history := mh;
                cost_analytics := ca |} pn).
Proof.
  intros Houts Hpn.
  destruct (nested_Forall2_elem _ _ _ _ Houts) as (_ & Hcover & _).
  apply list_elem_of_fmap in Hpn as ([pn' part] & -> & Hpart).
  destruct (Hcover (List.hd ("", {| s_name := ""; s_location := "";
                                    s_rating := 0; s_avg_delivery_days := 0;
                                    s_reliability_score := 0 |})
                            shipped_suppliers) (pn', part))
    as (r & Hr & Hid & Hnum & _); [by left|done|].
  simpl in Hid, Hnum.
  destruct (insert_or_ignore_many_present shipped_suppliers sup "SUP-001")
    as [s0 Hs0]; [by left|].
  destruct (find_best_supplier_least
              {| suppliers := insert_or_ignore_many shipped_suppliers sup;
                 supplier_parts := sps ++ mjoin outs;
                 maintenance_history := mh;
                 cost_analytics := ca |} pn')
    as (o & _ & Hbest & _).
  - intros Hnil.
    assert ((r, s0) ∈ @nil offer) as Hmem; [|by apply elem_of_nil in Hmem].
    rewrite <- Hnil. apply elem_of_offers_for. simpl.
    split_and!; [apply elem_of_app; by right|done|by rewrite Hid].
  - cbn [fst]. rewrite Hbest. by eexists.
Qed.

Section SetupFacts.
Context `{NumpyRandom rng} `{PandasSample}.

(** The frame of the shipped literals has at least 1000 rows, and every
    RUL in it is between 0 and 348. *)
Lemma shipped_frame_facts (ambient : rng) :
  ∃ df st,
    create_nasa_sample_data ambient = Ok (df, st)
    ∧ (1000 ≤ length df)%nat
    ∧ Forall (λ rd, 0 ≤ RUL rd ≤ 348) df.
Proof.
  destruct (create_total shipped_params ambient ltac:(done))
    as (ls & df & st & Hcreate & _ & Hfst & Hall & Hlab).
  exists df, st. split_and!; [done| |].
  - rewrite <- (length_fmap labelled), Hlab, length_bind_sum.
    assert (length ls = 100%nat) as Hlen.
    { by rewrite <- (length_fmap fst), Hfst. }
    pose proof (sum_list_lower (λ x, length (labelled_block x)) 150 ls) as Hb.
    rewrite Hlen in Hb. etrans; [|apply Hb]; [lia|].
    eapply Forall_impl; [exact Hall|]. intros [u N]. simpl.
    unfold labelled_block. rewrite length_fmap, length_seqZ. simpl. lia.
  - apply Forall_forall. intros rd Hrd.
    assert (labelled rd ∈ ls ≫= labelled_block) as Hmem.
    { rewrite <- Hlab. apply list_elem_of_fmap. by exists rd. }
    apply elem_of_labelled_blocks in Hmem as (N & HN & Hc & ->).
    apply (proj1 (Forall_forall _ _) Hall) in HN. simpl in HN. lia.
Qed.

Lemma create_cached_total (csv : option (list reading)) (ambient : rng) :
  ∃ df st,
    create_nasa_sample_data_cached csv ambient = Ok (df, st)
    ∧ ∀ cached, csv = Some cached → df = cached ∧ st = ambient.
Proof.
  destruct csv as [cached|].
  - exists cached, ambient. split; [done|]. by intros ? [= ->].
  - destruct (shipped_frame_facts ambient) as (df & st & Hcreate & _).
    exists df, st. split; [done|]. by intros ? [=].
Qed.

(** The five steps never fail; the store they leave. *)
Lemma setup_spec (csv : option (list reading)) (file : option store)
    (today : Z) (ambient : rng) :
  let s0 := create_database file in
  ∃ df st1 outs couts st2 row,
    create_nasa_sample_data_cached csv ambient = Ok (df, st1)
    ∧ Forall2 (λ sup rs, Forall2 (offer_row_ok (λ _, True) sup) shipped_parts rs)
        shipped_suppliers outs
    ∧ analytics_of (maintenance_history (core s0) ++ maintenance_records today)
      = Ok row
    ∧ setup csv file today ambient
      = Ok ({| core :=
                 {| suppliers :=
                      insert_or_ignore_many shipped_suppliers (suppliers (core s0));
                    supplier_parts := supplier_parts (core s0) ++ mjoin outs;
                    maintenance_history :=
                      maintenance_history (core s0) ++ maintenance_records today;
                    cost_analytics :=
                      <[period_label := row]> (cost_analytics (core s0)) |};
               nasa_sensor_data :=
                 nasa_sensor_data s0
                 ++ (nasa_sensor_row_of
                       <$> sample_rows 42 (Nat.min 1000 (length df)) df);
               parts_catalog :=
                 insert_or_ignore_many shipped_parts (parts_catalog s0);
               aircraft := insert_or_ignore_many shipped_aircraft (aircraft s0);
               engine_components :=
                 insert_or_ignore_many (mjoin couts) (engine_components s0) |},
            df, st2).
Proof.
  intros s0.
  destruct (create_cached_total csv ambient) as (df & st1 & Hcreate & _).
  set (s1 := with_nasa_sensor_data
               (nasa_sensor_data s0
                ++ (nasa_sensor_row_of
                      <$> sample_rows 42 (Nat.min 1000 (length df)) df)) s0).
  assert (load_nasa_data (Some df) s0 = Ok s1) as Hload.
  { unfold load_nasa_data, df_sample. by rewrite decide_True by lia. }
  destruct (add_supply_chain_data_spec (λ _, True) (λ _, True) (λ _, True)
              ltac:(done) ltac:(done) ltac:(done) s1 st1)
    as (outs & couts & st2 & Houts & _ & Hrun).
  set (s2 := {| core := _ |}) in Hrun.
  destruct (generate_cost_analytics_ok today (core s2)) as (row & Hrow & Hgen).
  exists df, st1, outs, couts, st2, row.
  split_and!; [done|done|done|].
  unfold setup. rewrite Hcreate. cbn [mbind result_bind].
  fold s0. rewrite Hload. cbn [mbind result_bind].
  rewrite Hrun. cbn [mbind result_bind].
  rewrite Hgen. cbn [mbind result_bind]. done.
Qed.


(** A first run on a machine with neither cache nor database succeeds,
    and the report that follows it shows 1000 sensor readings with a RUL
    range and average inside 0..348, 5 aircraft with 52,740 flight hours,
    5 suppliers, 8 parts, a cost reduction of 87.5% and a best supplier
    for the example part. *)
Theorem fresh_setup_report (today : Z) (ambient : rng) :
  ∃ s df st rep pct,
    setup None None today ambient = Ok (s, df, st)
    ∧ generate_report s = Ok rep
    ∧ rep_readings rep = 1000
    ∧ 0 ≤ rep_rul_min rep
    ∧ rep_rul_min rep ≤ rep_rul_max rep
    ∧ rep_rul_max rep ≤ 348
    ∧ (0 <= rep_rul_avg rep <= 348)%Q
    ∧ rep_aircraft rep = 5
    ∧ rep_flight_hours rep = 52740
    ∧ rep_suppliers rep = 5
    ∧ rep_parts rep = 8
    ∧ rep_cost_reduction rep = Some pct
    ∧ (pct == 87.5)%Q
    ∧ is_Some (rep_best_supplier rep).
Proof.
  destruct (setup_spec None None today ambient)
    as (df & st1 & outs & couts & st2 & row & Hcreate & Houts & Hrow & Hsetup).
  destruct (shipped_frame_facts ambient) as (df' & st' & Hcreate' & Hlen & Hrul).
  cbn [create_nasa_sample_data_cached] in Hcreate.
  rewrite Hcreate in Hcreate'. injection Hcreate' as <- <-.
  change (create_database None) with empty_store in *.
  cbn [empty_store empty_database core suppliers supplier_parts
       maintenance_history cost_analytics nasa_sensor_data parts_catalog
       aircraft engine_components] in *.
  rewrite app_nil_l in Hrow. rewrite !app_nil_l in Hsetup.
  assert (analytics_of (maintenance_records today) = Ok shipped_analytics)
    as Hshipped by (vm_compute; reflexivity).
  rewrite Hshipped in Hrow. injection Hrow as <-.
  replace (Nat.min 1000 (length df)) with 1000%nat in Hsetup by lia.
  destruct (sample_rows_sub 42 1000 df Hlen) as [Hsub Hsize].
  set (sample_data := sample_rows 42 1000 df) in *.
  set (s := {| core := _ |}) in Hsetup.
  assert (Forall (λ x, 0 ≤ x ≤ 348) (ns_rul <$> nasa_sensor_data s)) as Hbounds.
  { apply Forall_forall. intros x Hx. subst s. cbn [nasa_sensor_data] in Hx.
    rewrite <- list_fmap_compose in Hx.
    apply list_elem_of_fmap in Hx as (rd & -> & Hrd).
    apply (elem_of_submseteq _ _ _ Hrd) in Hsub.
    exact (proj1 (Forall_forall _ _) Hrul rd Hsub). }
  destruct (nasa_sensor_row_of <$> sample_data) as [|r rows] eqn:Hrows.
  { apply (f_equal length) in Hrows. rewrite length_fmap, Hsize in Hrows. done. }
  assert (length (r :: rows) = 1000%nat) as Hcount.
  { by rewrite <- Hrows, length_fmap. }
  destruct (generate_report_ok s r rows 52740
              (Some (546000 / inject_Z (12 * 52000) * 100)%Q))
    as (mn & mx & avg & Hmin & Hmax & Havg & Hreport).
  - done.
  - subst s. cbn [aircraft]. vm_compute. reflexivity.
  - by apply (report_savings_pct_row _ shipped_analytics 12 78000 156000 546000).
  - destruct (sql_min_spec _ _ Hmin) as [Hmn_in Hmn].
    destruct (sql_max_spec _ _ Hmax) as [Hmx_in Hmx].
    pose proof (proj1 (Forall_forall _ _) Hbounds mn Hmn_in) as Hmn_b.
    pose proof (proj1 (Forall_forall _ _) Hbounds mx Hmx_in) as Hmx_b.
    pose proof (proj1 (Forall_forall _ _) Hmn mx Hmx_in) as Hle.
    pose proof (sql_avg_between 0 348 _ avg Hbounds Havg) as Havg_b.
    cbv beta in Hmn_b, Hmx_b, Hle.
    eexists s, df, st2, _, _. split; [exact Hsetup|]. split; [exact Hreport|].
    cbn [rep_readings rep_rul_min rep_rul_max rep_rul_avg rep_aircraft
         rep_flight_hours rep_suppliers rep_parts rep_cost_reduction
         rep_best_supplier].
    split. { subst s. cbn [nasa_sensor_data]. rewrite Hcount. reflexivity. }
    split; [lia|]. split; [exact Hle|]. split; [lia|].
    split; [exact Havg_b|].
    split. { subst s. cbn [aircraft]. vm_compute. reflexivity. }
    split; [reflexivity|].
    split. { subst s. cbn [core suppliers]. vm_compute. reflexivity. }
    split. { subst s. cbn [parts_catalog]. vm_compute. reflexivity. }
    split; [reflexivity|].
    split. { vm_compute. reflexivity. }
    subst s. cbn [core].
    by apply (catalogue_part_has_best_supplier (λ _, True) _ [] outs);
      [|left].
Qed.
End SetupFacts.
